(** * Sliding-window rate limiter of [src/lib/server/ratelimiter.ts]

    A shallow embedding of the limiter and of the part of the sorted-set
    store it drives, followed by the properties of the specification.

    Conventions of the embedding.
    - A JavaScript number is [NaN] or an exact rational ([Num q]), and
      the arithmetic is exact; the infinities are outside the model.
      On whole numbers below [2^53] in absolute value (the clock
      values, the counts, a whole limit, a window of a whole number of
      milliseconds) this is the arithmetic of the code's doubles.  On
      other numbers the code rounds each result to a double and the
      model does not: a property whose truth depends on such a result
      (the end of a window with a fraction of a millisecond, added to
      its opening) is stated for a whole number of milliseconds.
    - [Date.now()] is an explicit argument ([now : Z], milliseconds).  A
      check-and-increment call reads the clock twice (once in
      [getRemaining], once in [_addRequest]) and so takes two instants.
    - [process.env] is a finite map from names to strings; JavaScript's
      [Number] on strings is a parameter of the development.
    - The store is a finite map from keys to sorted sets.  The limiter
      only ever writes [zadd(key, {score: now, member: now})], so a
      sorted set is kept as the ascending list of its members, each of
      which is its own score.  The client hands the members back as the
      numbers that were written, so [firstMessageTime] is a number or
      [undefined].
    - Every command the client sends is logged, reads included, so that
      "no store access" and "no mutation" are statements about the log
      and about the data.  The eviction of a record by the store once
      its time to live has run out is not a step of the model: the time
      to live is only recorded. *)

From Stdlib Require Import ZArith QArith Qround Qcanon Lia Lqa Bool Ascii String List Sorted.
From stdpp Require Import base option strings gmap.

Local Open Scope string_scope.
Local Open Scope Z_scope.

(** ** JavaScript values *)

Module JS.

(** [number], without rounding and without infinities: the operations
    are exact, as those of doubles are on whole numbers below [2^53].
    The results of the arithmetic operations are kept in lowest terms,
    so that equal numbers are equal terms. *)
Inductive JSNumber : Type :=
| NaN
| Num (q : Q).

Definition of_Z (z : Z) : JSNumber := Num (inject_Z z).

(** [a * b], [a + b], [a - b]. *)
Definition mul (a b : JSNumber) : JSNumber :=
  match a, b with Num x, Num y => Num (Qred (x * y)) | _, _ => NaN end.
Definition add (a b : JSNumber) : JSNumber :=
  match a, b with Num x, Num y => Num (Qred (x + y)) | _, _ => NaN end.
Definition sub (a b : JSNumber) : JSNumber :=
  match a, b with Num x, Num y => Num (Qred (x - y)) | _, _ => NaN end.

(** [a >= b]: false as soon as one side is [NaN]. *)
Definition ge (a b : JSNumber) : bool :=
  match a, b with Num x, Num y => Qle_bool y x | _, _ => false end.

(** [a < b]: false as soon as one side is [NaN]. *)
Definition lt (a b : JSNumber) : bool :=
  match a, b with Num x, Num y => negb (Qle_bool y x) | _, _ => false end.

(** [isNaN(a)]. *)
Definition isNaN (a : JSNumber) : bool :=
  match a with NaN => true | Num _ => false end.

(** [a === b] on numbers ([NaN] equals nothing). *)
Definition strict_eq (a b : JSNumber) : bool :=
  match a, b with Num x, Num y => Qeq_bool x y | _, _ => false end.

(** [Math.max(a, b)]. *)
Definition max (a b : JSNumber) : JSNumber :=
  match a, b with
  | Num x, Num y => Num (if Qle_bool x y then y else x)
  | _, _ => NaN
  end.

(** [Math.ceil(a)]. *)
Definition ceil (a : JSNumber) : JSNumber :=
  match a with Num x => of_Z (Qceiling x) | NaN => NaN end.

(** [a / 1000]. *)
Definition div1000 (a : JSNumber) : JSNumber :=
  match a with Num x => Num (Qred (x / 1000)) | NaN => NaN end.

(** Truthiness of a number: [0] and [NaN] are falsy. *)
Definition truthy (a : JSNumber) : bool :=
  match a with Num x => negb (Qeq_bool x 0) | NaN => false end.

(** ASCII case mapping, as [toUpperCase] and [toLowerCase] act on the
    ASCII names the limiter handles. *)
Definition upper_ascii (c : ascii) : ascii :=
  let n := nat_of_ascii c in
  if ((97 <=? n)%nat && (n <=? 122)%nat)%bool then ascii_of_nat (n - 32) else c.

Definition lower_ascii (c : ascii) : ascii :=
  let n := nat_of_ascii c in
  if ((65 <=? n)%nat && (n <=? 90)%nat)%bool then ascii_of_nat (n + 32) else c.

Fixpoint map_string (f : ascii -> ascii) (s : string) : string :=
  match s with
  | EmptyString => EmptyString
  | String c r => String (f c) (map_string f r)
  end.

Definition toUpperCase : string -> string := map_string upper_ascii.
Definition toLowerCase : string -> string := map_string lower_ascii.

(** [s.replace(/-/g, "_")]. *)
Definition replace_hyphens : string -> string :=
  map_string (fun c => if Ascii.eqb c "-"%char then "_"%char else c).

(** [s.startsWith(p)]. *)
Definition startsWith (s p : string) : bool := String.prefix p s.

End JS.

Import JS.

(** ** Outcomes

    A call either returns or throws.  [InvalidLimitConfiguration] is the
    [Error("Invalid limit configuration")] of [_getLimit];
    [StoreCommandError] is a command the store rejects. *)

Inductive Failure : Type :=
| InvalidLimitConfiguration
| StoreCommandError.

Inductive Outcome (A : Type) : Type :=
| Ok (a : A)
| Throw (e : Failure).

Arguments Ok {A} a.
Arguments Throw {A} e.

(** ** The sorted-set store *)

Module Store.

(** The commands the limiter sends. *)
Inductive Command : Type :=
| ZRANGE (key : string)                     (* zrange(key, 0, 0, {withScores: true}) *)
| ZCARD (key : string)
| DEL (key : string)
| ZADD (key : string) (score member : Z)
| EXPIRE (key : string) (seconds : JSNumber).

(** What reaches the store: one command, or the commands queued by
    [multi()] and sent by [exec()]. *)
Inductive Request : Type :=
| Single (c : Command)
| Transaction (cmds : list Command).

(** A sorted set whose members are their own scores: the members in
    ascending order, and the time to live last set with [EXPIRE]. *)
Record SortedSet : Type := mkSortedSet {
  members : list Z;
  ttl : option Q
}.

(** The store: the data, and the commands received so far (latest first). *)
Record Redis : Type := mkRedis {
  data : gmap string SortedSet;
  log : list Request
}.

Definition empty : Redis := mkRedis ∅ [].

Definition logged (c : Command) (r : Redis) : Redis :=
  mkRedis (data r) (Single c :: log r).

(** Adding member [t] with score [t]: a member already present keeps
    its place and the cardinality does not change. *)
Fixpoint insert_member (t : Z) (l : list Z) : list Z :=
  match l with
  | [] => [t]
  | x :: r =>
      if (t <? x)%Z then t :: l
      else if (t =? x)%Z then l
      else x :: insert_member t r
  end.

Definition members_of (d : gmap string SortedSet) (key : string) : list Z :=
  match d !! key with Some s => members s | None => [] end.

(** Reply of [zrange(key, 0, 0, {withScores: true})]: the flat array
    [member, score] of the lowest entry, or the empty array. *)
Definition zrange_reply (d : gmap string SortedSet) (key : string) : list Z :=
  match members_of d key with
  | [] => []
  | m :: _ => [m; m]
  end.

Definition zcard_reply (d : gmap string SortedSet) (key : string) : Z :=
  Z.of_nat (length (members_of d key)).

Definition del_data (key : string) (d : gmap string SortedSet) : gmap string SortedSet :=
  delete key d.

Definition zadd_data (key : string) (t : Z) (d : gmap string SortedSet)
  : gmap string SortedSet :=
  match d !! key with
  | Some s => <[key := mkSortedSet (insert_member t (members s)) (ttl s)]> d
  | None => <[key := mkSortedSet [t] None]> d
  end.

(** [EXPIRE] needs a number; it does nothing on a missing key. *)
Definition expire_data (key : string) (seconds : JSNumber) (d : gmap string SortedSet)
  : Outcome (gmap string SortedSet) :=
  match seconds with
  | NaN => Throw StoreCommandError
  | Num q =>
      match d !! key with
      | Some s => Ok (<[key := mkSortedSet (members s) (Some q)]> d)
      | None => Ok d
      end
  end.

(** Effect of one write command on the data. *)
Definition apply_write (c : Command) (d : gmap string SortedSet)
  : Outcome (gmap string SortedSet) :=
  match c with
  | DEL key => Ok (del_data key d)
  | ZADD key score _ => Ok (zadd_data key score d)
  | EXPIRE key seconds => expire_data key seconds d
  | _ => Ok d
  end.

(** [multi() ... exec()]: the queued commands, in order, as one unit. *)
Fixpoint apply_all (cs : list Command) (d : gmap string SortedSet)
  : Outcome (gmap string SortedSet) :=
  match cs with
  | [] => Ok d
  | c :: rest =>
      match apply_write c d with
      | Ok d' => apply_all rest d'
      | Throw e => Throw e
      end
  end.

End Store.

Import Store.

(** ** The monad of the limiter: store state and exceptions *)

Definition M (A : Type) : Type := Redis -> Outcome (A * Redis).

Definition ret {A} (a : A) : M A := fun r => Ok (a, r).

Definition bind {A B} (m : M A) (k : A -> M B) : M B :=
  fun r => match m r with
           | Ok (a, r') => k a r'
           | Throw e => Throw e
           end.

Definition throw {A} (e : Failure) : M A := fun _ => Throw e.

Notation "'await' x <- m ; k" := (bind m (fun x => k))
  (at level 10, x name, m at level 100, k at level 200,
   format "'[v' 'await'  x  <-  m ; '/' k ']'").

(** The client calls. *)
Definition zrange (key : string) : M (list Z) :=
  fun r => Ok (zrange_reply (data r) key, logged (ZRANGE key) r).

Definition zcard (key : string) : M Z :=
  fun r => Ok (zcard_reply (data r) key, logged (ZCARD key) r).

Definition zadd (key : string) (score member : Z) : M unit :=
  fun r => Ok (tt, mkRedis (zadd_data key score (data r)) (Single (ZADD key score member) :: log r)).

Definition del (key : string) : M unit :=
  fun r => Ok (tt, mkRedis (del_data key (data r)) (Single (DEL key) :: log r)).

Definition multi_exec (cmds : list Command) : M unit :=
  fun r => match apply_all cmds (data r) with
           | Ok d => Ok (tt, mkRedis d (Transaction cmds :: log r))
           | Throw e => Throw e
           end.

(** ** The limiter *)

(** Result of an admission call; [timeRemaining = None] is [null]. *)
Record RateLimitResult : Type := mkResult {
  allowed : bool;
  remaining : JSNumber;
  timeRemaining : option JSNumber
}.

(** [Number(firstMessageTime)], where [firstMessageTime] is the first
    element of the reply of [zrange]: [undefined] for the empty array,
    a member otherwise. *)
Definition Number_of (firstMessageTime : option Z) : JSNumber :=
  match firstMessageTime with
  | Some t => of_Z t
  | None => NaN
  end.

(** [!firstMessageTime]: true for [undefined] and for the number [0]. *)
Definition falsy (firstMessageTime : option Z) : bool :=
  match firstMessageTime with
  | None => true
  | Some t => negb (truthy (of_Z t))
  end.

Section RateLimiter.

(** [process.env]. *)
Variable env : gmap string string.

(** JavaScript's [Number] on a string. *)
Variable Number : string -> JSNumber.

(** [isPremiumUser] of [./subscription-utils]. *)
Variable isPremiumUser : string -> bool.

(** [Number(process.env[key])]; [Number(undefined)] is [NaN]. *)
Definition Number_env (key : string) : JSNumber :=
  match env !! key with
  | Some v => Number v
  | None => NaN
  end.

Definition isRateLimiterEnabled : bool :=
  match env !! "RATELIMITER_ENABLED" with
  | Some v => String.eqb (toLowerCase v) "true"
  | None => false
  end.

Definition getTimeWindow (model : string) : JSNumber :=
  let key :=
    if String.eqb model "plugins"
    then "RATELIMITER_TIME_PLUGINS_WINDOW_MINUTES"
    else "RATELIMITER_TIME_WINDOW_MINUTES" in
  mul (mul (Number_env key) (of_Z 60)) (of_Z 1000).

Definition _getFixedModelName (model : string) : string :=
  toUpperCase (replace_hyphens (if startsWith model "gpt-4" then "gpt-4" else model)).

Definition _makeStorageKey (userId model : string) : string :=
  "ratelimit:" ++ userId ++ ":" ++ _getFixedModelName model.

Definition tier_suffix (isPremium : bool) : string :=
  if isPremium then "PREMIUM" else "FREE".

Definition default_limit (isPremium : bool) : JSNumber :=
  if isPremium then of_Z 30 else of_Z 15.

Definition _getLimit (model : string) (isPremium : bool) : Outcome JSNumber :=
  let limit :=
    if String.eqb model "plugins" then
      let limitKey := "RATELIMITER_LIMIT_" ++ toUpperCase model ++ "_" ++ tier_suffix isPremium in
      match env !! limitKey with
      | None => default_limit isPremium
      | Some v => Number v
      end
    else
      let fixedModelName := _getFixedModelName model in
      let limitKey := "RATELIMITER_LIMIT_" ++ fixedModelName ++ "_" ++ tier_suffix isPremium in
      match env !! limitKey with
      | None => default_limit isPremium
      | Some v => Number v
      end in
  if (isNaN limit || lt limit (of_Z 0))%bool
  then Throw InvalidLimitConfiguration
  else Ok limit.

Definition getRemaining (now : Z) (userId model : string) (isPremium : bool)
  : M (JSNumber * option JSNumber) :=
  let storageKey := _makeStorageKey userId model in
  let timeWindow := getTimeWindow model in
  match _getLimit model isPremium with
  | Throw e => throw e
  | Ok limit =>
      await reply <- zrange storageKey;
      await count <- zcard storageKey;
      let firstMessageTime := head reply in
      if falsy firstMessageTime then ret (limit, None)
      else
        let windowEndTime := add (Number_of firstMessageTime) timeWindow in
        if ge (of_Z now) windowEndTime then
          (* The window has expired, no need to reset the count here *)
          ret (limit, None)
        else
          let remaining := max (of_Z 0) (sub limit (of_Z count)) in
          ret (remaining,
               if strict_eq remaining (of_Z 0)
               then Some (sub windowEndTime (of_Z now))
               else None)
  end.

Definition _addRequest (now : Z) (key model : string) : M unit :=
  let timeWindow := getTimeWindow model in
  await reply <- zrange key;
  let firstMessageTime := head reply in
  if (falsy firstMessageTime
      || ge (sub (of_Z now) (Number_of firstMessageTime)) timeWindow)%bool then
    (* Start a new window *)
    multi_exec [DEL key; ZADD key now now; EXPIRE key (ceil (div1000 timeWindow))]
  else
    (* Add to existing window *)
    zadd key now now.

(** [_ratelimit]; [now_read] is the clock read by [getRemaining],
    [now_write] the one read by [_addRequest]. *)
Definition _ratelimit (now_read now_write : Z) (model userId : string) (isPremium : bool)
  : M RateLimitResult :=
  let storageKey := _makeStorageKey userId model in
  await budget <- getRemaining now_read userId model isPremium;
  let remaining := fst budget in
  let timeRemaining := snd budget in
  if strict_eq remaining (of_Z 0) then
    ret (mkResult false remaining timeRemaining)
  else
    await _u <- _addRequest now_write storageKey model;
    ret (mkResult true (sub remaining (of_Z 1)) None).

Definition ratelimit (now_read now_write : Z) (userId model : string) : M RateLimitResult :=
  if negb isRateLimiterEnabled then
    ret (mkResult true (of_Z (-1)) None)
  else
    let isPremium := isPremiumUser userId in
    _ratelimit now_read now_write model userId isPremium.

Definition checkRateLimitWithoutIncrementing (now : Z) (userId model : string)
  : M RateLimitResult :=
  if negb isRateLimiterEnabled then
    ret (mkResult true (of_Z (-1)) None)
  else
    let isPremium := isPremiumUser userId in
    await budget <- getRemaining now userId model isPremium;
    let remaining := fst budget in
    let timeRemaining := snd budget in
    if strict_eq remaining (of_Z 0) then
      ret (mkResult false (of_Z 0) timeRemaining)
    else
      ret (mkResult true remaining None).

Definition resetRateLimit (model userId : string) : M unit :=
  del (_makeStorageKey userId model).

End RateLimiter.

(** ** The rest of the limiter's file *)

Module Text.

(** The line feed of the message templates. *)
Definition LF : string := String (ascii_of_nat 10) EmptyString.

(** White space, as [trim] sees it on ASCII text. *)
Definition is_space (c : ascii) : bool :=
  let n := nat_of_ascii c in
  ((9 <=? n)%nat && (n <=? 13)%nat || (n =? 32)%nat)%bool.

Fixpoint trimStart (s : string) : string :=
  match s with
  | EmptyString => EmptyString
  | String c r => if is_space c then trimStart r else s
  end.

(** The string without its trailing white space. *)
Fixpoint trimEnd (s : string) : string :=
  match s with
  | EmptyString => EmptyString
  | String c r =>
      match trimEnd r with
      | EmptyString => if is_space c then EmptyString else String c EmptyString
      | r' => String c r'
      end
  end.

(** [s.trim()]. *)
Definition trim (s : string) : string := trimEnd (trimStart s).

(** [list.includes(x)] on strings. *)
Definition includes (l : list string) (x : string) : bool :=
  existsb (String.eqb x) l.

End Text.

Import Text.

(** The object serialised into the body of a 429 response. *)
Record RateLimitBody : Type := mkBody {
  message : string;
  body_remaining : JSNumber;
  body_timeRemaining : option JSNumber
}.

(** [new Response(JSON.stringify(body), {status})]. *)
Record Response : Type := mkResponse {
  response_body : RateLimitBody;
  status : Z
}.

Section RateLimiterApi.

Variable env : gmap string string.
Variable Number : string -> JSNumber.
Variable isPremiumUser : string -> bool.

(** [epochTimeToNaturalLanguage] of [../utils]; at run time it can be
    handed [null]. *)
Variable epochTimeToNaturalLanguage : option JSNumber -> string.

(** The text a template literal gives for the property of
    [Object.prototype] of that name, if there is one: [modelNames] is a
    plain object and its lookup falls back on them. *)
Variable Object_prototype : string -> option string.

Definition modelNames : list (string * string) :=
  [("plugins", "plugins");
   ("tts-1", "text-to-speech");
   ("stt-1", "speech-to-text");
   ("hackergpt", "HGPT-3.5");
   ("hackergpt-pro", "HGPT-4");
   ("gpt-4", "GPT-4")].

Fixpoint own_property (table : list (string * string)) (name : string) : option string :=
  match table with
  | [] => None
  | (k, v) :: rest => if String.eqb k name then Some v else own_property rest name
  end.

(** [modelNames[model] || model], as a template literal prints it. *)
Definition getModelName (model : string) : string :=
  match own_property modelNames model with
  | Some name => name
  | None =>
      match Object_prototype model with
      | Some text => text
      | None => model
      end
  end.

Definition getRateLimitErrorMessage (timeRemaining : option JSNumber) (premium : bool)
           (model : string) : string :=
  let remainingText := epochTimeToNaturalLanguage timeRemaining in
  let baseMessage :=
    "⚠️ You've reached the rate limit for " ++ getModelName model ++ LF
    ++ "⏰ Access will be restored in " ++ remainingText in
  if includes ["plugins"; "tts-1"; "stt-1"] model then
    if premium then baseMessage
    else baseMessage ++ LF ++ "🚀 Consider upgrading for higher limits and more features"
  else
    let message :=
      "⚠️ Usage Limit Reached for " ++ getModelName model ++ LF
      ++ "⏰ Access will be restored in " ++ remainingText in
    let message :=
      if premium then
        if String.eqb model "hackergpt" then
          message ++ LF ++ LF ++ "In the meantime, you can use HGPT-4 or GPT-4o"
        else if String.eqb model "hackergpt-pro" then
          message ++ LF ++ LF ++ "In the meantime, you can use GPT-4o or HGPT-3.5"
        else if String.eqb model "gpt-4" then
          message ++ LF ++ LF ++ "In the meantime, you can use HGPT-4 or HGPT-3.5"
        else message
      else
        message ++ LF ++ LF
        ++ "🔓 Want more? Upgrade to Pro and unlock a world of features:" ++ LF
        ++ "- Higher usage limits" ++ LF
        ++ "- Exclusive access to HGPT-4 and GPT-4o" ++ LF
        ++ "- Advanced features like vision, web browsing, and file uploads" ++ LF
        ++ "- Access to premium tools such as Nuclei, Katana, PortScanner, and more" in
    trim message.

(** [checkRatelimitOnApi]: [None] is [null]. *)
Definition checkRatelimitOnApi (now_read now_write : Z) (userId model : string)
  : M (option (Response * RateLimitResult)) :=
  await result <- ratelimit env Number isPremiumUser now_read now_write userId model;
  if allowed result then ret None
  else
    let premium := isPremiumUser userId in
    let message := getRateLimitErrorMessage (timeRemaining result) premium model in
    let response :=
      mkResponse (mkBody message (remaining result) (timeRemaining result)) 429 in
    ret (Some (response, result)).

End RateLimiterApi.

(** ** Sequences of calls *)

(** One check-and-increment call per pair of instants (the clock read
    by [getRemaining], the clock read by [_addRequest]); the results in
    call order. *)
Fixpoint admit_all (admit_call : Z -> Z -> M RateLimitResult) (calls : list (Z * Z))
  : M (list RateLimitResult) :=
  match calls with
  | [] => ret []
  | (now_read, now_write) :: rest =>
      await res <- admit_call now_read now_write;
      await more <- admit_all admit_call rest;
      ret (res :: more)
  end.

(** Peek calls, each with its instant, user and resource class; the
    results are dropped. *)
Fixpoint peek_all (peek : Z -> string -> string -> M RateLimitResult)
         (calls : list (Z * string * string)) : M unit :=
  match calls with
  | [] => ret tt
  | (now, userId, model) :: rest =>
      await _res <- peek now userId model;
      peek_all peek rest
  end.

(** The same instant for both clock reads of a call. *)
Definition at_instants (ts : list Z) : list (Z * Z) := map (fun t => (t, t)) ts.

(** The results of a run, when it returns. *)
Definition results_of {A} (o : Outcome (A * Redis)) : option A :=
  match o with
  | Ok (a, _) => Some a
  | Throw _ => None
  end.

(** The data of the store after a run, when it returns. *)
Definition data_of {A} (o : Outcome (A * Redis)) : option (gmap string SortedSet) :=
  match o with
  | Ok (_, r) => Some (data r)
  | Throw _ => None
  end.

(** ** Configurations used in the examples *)

(** A reading of setting strings given by a table; anything else is
    not a number.  The decimal ["0.016666666666666666"] is read as
    [1/60]: in doubles [Number("0.016666666666666666") * 60 * 1000] is
    exactly [1000].  JavaScript's [Number] reads the empty string and
    a string of spaces as [0]. *)
Fixpoint Number_table (tbl : list (string * JSNumber)) (s : string) : JSNumber :=
  match tbl with
  | [] => NaN
  | (k, v) :: rest => if String.eqb k s then v else Number_table rest s
  end.

Definition Number_example : string -> JSNumber :=
  Number_table [("0", of_Z 0); ("2", of_Z 2); ("3", of_Z 3); ("-1", of_Z (-1));
                ("0.016666666666666666", Num (1 # 60)); ("abc", NaN);
                ("", of_Z 0); (" ", of_Z 0); ("2.5", Num (5 # 2))].

(** Limiter enabled, a window of one second, two requests per window
    for free users of the gpt-4 family. *)
Definition env_example : gmap string string :=
  <["RATELIMITER_ENABLED" := "True"]>
    (<["RATELIMITER_TIME_WINDOW_MINUTES" := "0.016666666666666666"]>
       (<["RATELIMITER_LIMIT_GPT_4_FREE" := "2"]> ∅)).

(** The same with three requests per window. *)
Definition env_three : gmap string string :=
  <["RATELIMITER_LIMIT_GPT_4_FREE" := "3"]> env_example.

(** The same with the gpt-4 family closed to free users. *)
Definition env_closed : gmap string string :=
  <["RATELIMITER_LIMIT_GPT_4_FREE" := "0"]> env_example.

(** The same with two and a half requests per window. *)
Definition env_fraction : gmap string string :=
  <["RATELIMITER_LIMIT_GPT_4_FREE" := "2.5"]> env_example.

(** The same with the limit of the free tier left blank and the limit
    of the premium tier set to 3. *)
Definition env_blank : gmap string string :=
  <["RATELIMITER_LIMIT_GPT_4_PREMIUM" := "3"]>
    (<["RATELIMITER_LIMIT_GPT_4_FREE" := ""]> env_example).

(** The same with a space as the limit of the free tier. *)
Definition env_space : gmap string string :=
  <["RATELIMITER_LIMIT_GPT_4_FREE" := " "]> env_example.

Definition free_user : string -> bool := fun _ => false.

(** A store holding one record, without expiry, and an empty log. *)
Definition store_with (key : string) (ms : list Z) : Redis :=
  mkRedis {[ key := mkSortedSet ms None ]} [].

(** ** The admission part of the plugins route

    [POST] of [src/app/api/v2/chat/plugins/route.ts], from the list of
    free plugins to the second rate-limit check (the handling of the
    message that follows is not modelled, and an exception, which the
    handler turns into an error response, is left as [Throw]). *)

Module PluginsRoute.

(** How far the handler gets. *)
Inductive Admission : Type :=
| AccessDenied (text : string)      (* new Response("Access Denied to ...") *)
| RateLimited (response : Response) (* the response of checkRatelimitOnApi *)
| Proceed.                          (* the handler goes on to the message *)

(** [PluginID.CVEMAP], [SUBFINDER], [LINKFINDER] and [ALTERX]. *)
Definition freePlugins : list string :=
  ["cvemap"; "subfinder"; "linkfinder"; "alterx"].

Definition ratelimitmodel (chatSettings_model : string) : string :=
  if String.eqb chatSettings_model "mistral-medium" then "hackergpt"
  else if String.eqb chatSettings_model "mistral-large" then "hackergpt-pro"
  else "gpt-4".

Section Handler.

Variable env : gmap string string.
Variable Number : string -> JSNumber.
Variable isPremiumUser : string -> bool.
Variable epochTimeToNaturalLanguage : option JSNumber -> string.
Variable Object_prototype : string -> option string.

(** The four clock reads of the two rate-limit checks. *)
Record Clock : Type := mkClock {
  plugins_read : Z;
  plugins_write : Z;
  model_read : Z;
  model_write : Z
}.

Definition POST_admission (clock : Clock) (user_id selectedPlugin chatSettings_model : string)
  : M Admission :=
  let isPremium := isPremiumUser user_id in
  if (negb (includes freePlugins selectedPlugin) && negb isPremium)%bool then
    ret (AccessDenied
           ("Access Denied to " ++ selectedPlugin
            ++ ": The plugin you are trying to use is exclusive to Pro members. Please upgrade to a Pro account to access this plugin."))
  else
    await rateLimitCheckResultForPlugins <-
      checkRatelimitOnApi env Number isPremiumUser epochTimeToNaturalLanguage
                          Object_prototype (plugins_read clock) (plugins_write clock)
                          user_id "plugins";
    match rateLimitCheckResultForPlugins with
    | Some (response, _) => ret (RateLimited response)
    | None =>
        await rateLimitCheckResultForChatSettingsModel <-
          checkRatelimitOnApi env Number isPremiumUser epochTimeToNaturalLanguage
                              Object_prototype (model_read clock) (model_write clock)
                              user_id (ratelimitmodel chatSettings_model);
        match rateLimitCheckResultForChatSettingsModel with
        | Some (response, _) => ret (RateLimited response)
        | None => ret Proceed
        end
    end.

End Handler.

End PluginsRoute.

(** ** The plugin detector

    [src/app/api/v2/chat/plugin-detector/route.ts]: what is done to
    the messages before the model is called and to its answer
    afterwards, and the handler [POST] with its [catch] clause.
    Strings are ASCII text. *)

Module PluginDetector.

(** An entry of [generalPlugins]. *)
Record Plugin : Type := mkPlugin {
  name : string;
  priority : string;
  description : string;
  usageScenarios : list string
}.

Definition generalPlugins : list Plugin :=
  [mkPlugin
     "websearch"
     "Low"
     "Information retrieval tool accessing a pre-indexed web dataset. Provides data from periodically crawled web pages, which may be days to months old. Best used for recent/real-time information needs."
     ["Researching recent/current cybersecurity trends";
      "Gathering information on recent developments in AI";
      "Exploring established tech industry innovations"];
   mkPlugin
     "basellm"
     "High"
     "Handles a wide range of tasks and provides comprehensive information on various fields, including cybersecurity and programming. Uses the base language model's extensive knowledge for queries that don't require real-time data or specialized tools."
     ["Answering general and specific knowledge questions on established topics";
      "Providing detailed explanations, methodologies, and code examples for technical concepts";
      "Assisting with tasks that require in-depth understanding of cybersecurity, programming, or other technical fields"]].

(** A part of a message whose content is an array. *)
Inductive ContentPart : Type :=
| ImageUrl                 (* type "image_url" *)
| TextPart (text : string).

Inductive Content : Type :=
| Plain (text : string)
| Parts (parts : list ContentPart).

(** [BuiltChatMessage]. *)
Record Message : Type := mkMessage {
  role : string;
  content : Content
}.

(** [array.slice(start, end)]; [end_ = None] when it is left out. *)
Definition slice {A : Type} (l : list A) (start : Z) (end_ : option Z) : list A :=
  let len := Z.of_nat (length l) in
  let relative (i : Z) := if i <? 0 then Z.max (len + i) 0 else Z.min i len in
  let k := relative start in
  let final := match end_ with Some e => relative e | None => len end in
  firstn (Z.to_nat (Z.max (final - k) 0)) (skipn (Z.to_nat k) l).

(** [array.join(sep)] on strings. *)
Definition join (sep : string) (l : list string) : string := String.concat sep l.



(** [cleanedMessages.slice(1, -1).slice(-4)]. *)
Definition chatHistory (cleanedMessages : list Message) : list Message :=
  slice (slice cleanedMessages 1 (Some (-1))) (-4) None.

Definition getPluginsInfo (availablePlugins : list Plugin) : string :=
  join LF
       (map (fun plugin =>
               name plugin ++ "|" ++ priority plugin ++ "|" ++ description plugin ++ "|"
               ++ join "; " (usageScenarios plugin)) availablePlugins).

Definition buildMessagesToSend (chatHistory : list Message) (systemMessage userMessage : string)
  : list Message :=
  [mkMessage "system" (Plain systemMessage)]
    ++ chatHistory
    ++ [mkMessage "user" (Plain userMessage)].

(** First position of [needle] in [hay]. *)
Fixpoint indexOf (needle hay : string) : option nat :=
  if String.prefix needle hay then Some 0%nat
  else
    match hay with
    | EmptyString => None
    | String _ rest => option_map S (indexOf needle rest)
    end.

(** The string from position [n] on. *)
Fixpoint from (n : nat) (s : string) : string :=
  match n, s with
  | O, _ => s
  | S n', String _ rest => from n' rest
  | S _, EmptyString => EmptyString
  end.

(** [extractXML]: the expression
    [<tag>([\s\S]*?)</tag>] finds the first opening tag that has a
    closing tag after it, and captures the text up to the first such
    closing tag.  The tag is spliced into the expression as it is, so
    this is the search the code does for a tag of letters, as the two
    tags it uses are. *)
Definition extractXML (aiResponse xmlTag defaultValue : string) : string :=
  let opening := "<" ++ toLowerCase xmlTag ++ ">" in
  let closing := "</" ++ toLowerCase xmlTag ++ ">" in
  let text := toLowerCase aiResponse in
  match indexOf opening text with
  | None => defaultValue
  | Some i =>
      let rest := from (i + String.length opening) text in
      match indexOf closing rest with
      | None => defaultValue
      | Some j => trim (toLowerCase (String.substring 0 j rest))
      end
  end.

(** The moderation level kept by [detectPlugin]: [-1] for [NaN] and
    below [0], [1] above [1]. *)
Definition validModerationLevel (moderationLevel : JSNumber) : JSNumber :=
  if isNaN moderationLevel then of_Z (-1)
  else if lt moderationLevel (of_Z 0) then of_Z (-1)
  else if lt (of_Z 1) moderationLevel then of_Z 1
  else moderationLevel.

(** [availablePlugins.some(plugin => plugin.name.toLowerCase() === detectedPlugin.toLowerCase())]. *)
Definition isAvailable (availablePlugins : list Plugin) (detectedPlugin : string) : bool :=
  existsb (fun plugin => String.eqb (toLowerCase (name plugin)) (toLowerCase detectedPlugin))
          availablePlugins.

Definition determinePlugin (detectedPlugin : string) (moderationLevel : JSNumber)
           (availablePlugins : list Plugin) : string :=
  if (String.eqb detectedPlugin "websearch" && lt moderationLevel (Num (9 # 10)))%bool then
    "websearch"
  else if (String.eqb detectedPlugin "none" || String.eqb detectedPlugin "basellm")%bool then
    "None"
  else if isAvailable availablePlugins detectedPlugin then detectedPlugin
  else "None".

(** What a step of the handler outside this file does: it returns, or
    it throws an error whose [statusCode] is a number or [undefined]. *)
Inductive Attempt (A : Type) : Type :=
| Returns (a : A)
| Throws (statusCode : option Z).

Arguments Returns {A} a.
Arguments Throws {A} statusCode.

Section Detection.

Variable env : gmap string string.
Variable Number : string -> JSNumber.
Variable isPremiumUser : string -> bool.

(** JavaScript's [parseFloat]. *)
Variable parseFloat : string -> JSNumber.

(** [GPT4o.modelId] and [HGPT4.modelId]. *)
Variables GPT4o_modelId HGPT4_modelId : string.

(** [detectPlugin] from the answer of the model on: [aiResponse] is
    [None] when the answer has no content, in which case
    [extractXML] throws and the [catch] clause answers. *)
Definition detectPlugin (aiResponse : option string) (availablePlugins : list Plugin)
  : string * JSNumber :=
  match aiResponse with
  | None => ("None", of_Z (-1))
  | Some aiResponse =>
      let detectedPlugin := extractXML aiResponse "Plugin" "None" in
      let moderationLevelString := extractXML aiResponse "ModerationLevel" "-1" in
      let moderationLevel := parseFloat moderationLevelString in
      let valid := validModerationLevel moderationLevel in
      let finalPlugin := determinePlugin detectedPlugin valid availablePlugins in
      (finalPlugin, valid)
  end.

(** The body and the status of the response of [POST]. *)
Record Answer : Type := mkAnswer {
  plugin : string;
  moderationLevel : JSNumber;
  answer_status : Z
}.

Definition rateLimitIdentifier (chatSettings_model : string) : string :=
  if String.eqb chatSettings_model GPT4o_modelId then "gpt-4"
  else if String.eqb chatSettings_model HGPT4_modelId then "hackergpt-pro"
  else "hackergpt".

(** The [catch] clause of [POST]: the status is
    [error.statusCode || 500]. *)
Definition caught (statusCode : option Z) : Answer :=
  mkAnswer "None" (of_Z (-1))
           match statusCode with
           | Some code => if code =? 0 then 500 else code
           | None => 500
           end.

(** [POST].  [profile] is the outcome of the steps up to
    [getServerProfile()], [lastUserMessage] that of the steps from
    [buildFinalMessages] to the content of the last message;
    [messageLength_min] and [messageLength_max] are those of
    [llmConfig.hackerRAG].  The errors of the limiter carry no
    [statusCode]. *)
Definition POST (now : Z) (profile : Attempt string) (chatSettings_model : string)
           (lastUserMessage : Attempt string) (messageLength_min messageLength_max : nat)
           (aiResponse : option string) (r : Redis) : Answer :=
  match profile with
  | Throws statusCode => caught statusCode
  | Returns user_id =>
      let availablePlugins := generalPlugins in
      match checkRateLimitWithoutIncrementing
              env Number isPremiumUser now user_id
              (rateLimitIdentifier chatSettings_model) r with
      | Throw _ => caught None
      | Ok (modelRateLimitCheck, _) =>
          if negb (allowed modelRateLimitCheck) then mkAnswer "None" (of_Z (-1)) 429
          else
            match lastUserMessage with
            | Throws statusCode => caught statusCode
            | Returns lastUserMessage =>
                if (String.length lastUserMessage <? messageLength_min)%nat then
                  mkAnswer "None" (of_Z 0) 200
                else if (messageLength_max <? String.length lastUserMessage)%nat then
                  mkAnswer "None" (of_Z (-1)) 200
                else
                  let detected := detectPlugin aiResponse availablePlugins in
                  let isValidPlugin := isAvailable availablePlugins (fst detected) in
                  mkAnswer (if isValidPlugin then fst detected else "None")
                           (snd detected) 200
            end
      end
  end.

End Detection.

End PluginDetector.

(** ** The command line of the port scanner

    [parseCommandLine], [processPortScannerData] and the request body
    of [handlePortscannerRequest], from the second part of
    [src/app/api/v2/chat/plugins/route.ts].  Strings are ASCII text. *)

Module PortScanner.

(** The double quote of the error messages. *)
Definition QUOTE : string := String (ascii_of_nat 34) EmptyString.

(** [PortScannerParams]; [port] is [None] when it was assigned
    [undefined] (the flag [-p] at the very end of the command). *)
Record PortScannerParams : Type := mkParams {
  host : list string;
  scanType : string;
  port : option string;
  topPorts : string;
  noSvc : bool;
  error : option string
}.

Definition with_error (params : PortScannerParams) (e : string) : PortScannerParams :=
  mkParams (host params) (scanType params) (port params) (topPorts params)
           (noSvc params) (Some e).

(** What a call of [parseCommandLine] ends with. *)
Inductive Parsed : Type :=
| Returned (params : PortScannerParams)
| TypeError.   (* value.split(",") on an undefined value *)

(** [s.split(/\s+/)]: [cur] is the piece being read, [in_gap] tells
    that the last character was white space. *)
Fixpoint split_spaces (s cur : string) (in_gap : bool) : list string :=
  match s with
  | EmptyString => [cur]
  | String c r =>
      if is_space c then
        if in_gap then split_spaces r cur true
        else cur :: split_spaces r EmptyString true
      else split_spaces r (cur ++ String c EmptyString) false
  end.

(** [s.split(sep)] for a separator of one character. *)
Fixpoint split_on (sep : ascii) (s cur : string) : list string :=
  match s with
  | EmptyString => [cur]
  | String c r =>
      if Ascii.eqb c sep then cur :: split_on sep r EmptyString
      else split_on sep r (cur ++ String c EmptyString)
  end.

(** The keys [flagMap[flag]] can give.  [flagMap] is a plain object,
    so the lower-case names of [Object.prototype] are found too; their
    value is no parameter name, and the loop treats such a flag as one
    that takes a value and sets nothing. *)
Inductive ParamKey : Type :=
| Host | ScanType | Port | TopPorts | NoSvc | Inherited.

Definition flagMap (flag : string) : option ParamKey :=
  if String.eqb flag "-host" then Some Host
  else if String.eqb flag "-st" then Some ScanType
  else if String.eqb flag "-scan-type" then Some ScanType
  else if String.eqb flag "-p" then Some Port
  else if String.eqb flag "-port" then Some Port
  else if String.eqb flag "-tp" then Some TopPorts
  else if String.eqb flag "-top-ports" then Some TopPorts
  else if String.eqb flag "-no-svc" then Some NoSvc
  else if String.eqb flag "constructor" then Some Inherited
  else if String.eqb flag "__proto__" then Some Inherited
  else None.

(** [`${value}`]. *)
Definition show (value : option string) : string :=
  match value with
  | Some v => v
  | None => "undefined"
  end.

(** One turn of the loop, for a flag that [flagMap] knows. *)
Inductive Turn : Type :=
| Continue (params : PortScannerParams)
| Stop (result : Parsed).

Definition turn (params : PortScannerParams) (flag : string) (param : ParamKey)
           (value : option string) : Turn :=
  match param with
  | Host =>
      match value with
      | Some v =>
          Continue (mkParams (split_on ","%char v EmptyString) (scanType params) (port params)
                             (topPorts params) (noSvc params) (error params))
      | None => Stop TypeError
      end
  | ScanType =>
      match value with
      | Some v =>
          if includes ["light"; "deep"; "custom"] v then
            Continue (mkParams (host params) v (port params) (topPorts params)
                               (noSvc params) (error params))
          else Stop (Returned (with_error params ("🚨 Invalid scan type: " ++ show value)))
      | None => Stop (Returned (with_error params ("🚨 Invalid scan type: " ++ show value)))
      end
  | Port | TopPorts | NoSvc =>
      if negb (String.eqb (scanType params) "custom") then
        Stop (Returned
                (with_error params
                   ("🚨 The option " ++ QUOTE ++ flag ++ QUOTE
                    ++ " is only allowed for custom scan type.")))
      else
        match param with
        | TopPorts =>
            match value with
            | Some v =>
                if includes ["full"; "100"; "1000"] v then
                  Continue (mkParams (host params) (scanType params) (port params) v
                                     (noSvc params) (error params))
                else
                  Stop (Returned
                          (with_error params
                             ("🚨 Invalid value for -top-ports: " ++ show value
                              ++ ". Allowed values are " ++ QUOTE ++ "full" ++ QUOTE ++ ", "
                              ++ QUOTE ++ "100" ++ QUOTE ++ ", " ++ QUOTE ++ "1000" ++ QUOTE
                              ++ ".")))
            | None =>
                Stop (Returned
                        (with_error params
                           ("🚨 Invalid value for -top-ports: " ++ show value
                            ++ ". Allowed values are " ++ QUOTE ++ "full" ++ QUOTE ++ ", "
                            ++ QUOTE ++ "100" ++ QUOTE ++ ", " ++ QUOTE ++ "1000" ++ QUOTE
                            ++ ".")))
            end
        | NoSvc =>
            Continue (mkParams (host params) (scanType params) (port params) (topPorts params)
                               true (error params))
        | _ =>
            Continue (mkParams (host params) (scanType params) value (topPorts params)
                               (noSvc params) (error params))
        end
  | Inherited => Continue params
  end.

(** After the loop. *)
Definition finish (params : PortScannerParams) : Parsed :=
  match host params with
  | [] => Returned (with_error params "🚨 Error: -host parameter is required.")
  | _ => Returned params
  end.

(** The loop over [args]: each turn takes a flag and the argument
    after it, if there is one. *)
Fixpoint loop (args : list string) (params : PortScannerParams) : Parsed :=
  match args with
  | [] => finish params
  | flag :: rest =>
      match flagMap flag with
      | None =>
          Returned (with_error params ("🚨 Invalid or unrecognized flag: " ++ flag))
      | Some param =>
          match rest with
          | [] =>
              match turn params flag param None with
              | Continue params' => finish params'
              | Stop result => result
              end
          | value :: rest' =>
              match turn params flag param (Some value) with
              | Continue params' => loop rest' params'
              | Stop result => result
              end
          end
      end
  end.

Definition MAX_INPUT_LENGTH : nat := 500.

Definition initial : PortScannerParams :=
  mkParams [] "light" (Some "") "" false None.

(** [input.trim().toLowerCase().split(/\s+/).slice(1)]. *)
Definition arguments (input : string) : list string :=
  tl (split_spaces (toLowerCase (trim input)) EmptyString false).

Definition parseCommandLine (input : string) : Parsed :=
  if (MAX_INPUT_LENGTH <? String.length input)%nat then
    Returned (with_error initial "🚨 Input command is too long")
  else loop (arguments input) initial.

(** [processPortScannerData]. *)
Definition processPortScannerData (data : string) : string :=
  String.concat ""
    (List.filter (fun line =>
               negb (String.eqb line "")
               && negb (startsWith line "data:")
               && negb (String.eqb (trim line) ""))%bool
            (split_on (ascii_of_nat 10) data EmptyString)).

(** The values of the fields of [params]. *)
Inductive Value : Type :=
| Strings (l : list string)
| Text (s : string)
| Boolean (b : bool)
| Null
| Undefined.

(** [Object.entries(params)]. *)
Definition entries (params : PortScannerParams) : list (string * Value) :=
  [("host", Strings (host params));
   ("scanType", Text (scanType params));
   ("port", match port params with Some v => Text v | None => Undefined end);
   ("topPorts", Text (topPorts params));
   ("noSvc", Boolean (noSvc params));
   ("error", match error params with Some e => Text e | None => Null end)].

(** The entries kept in the body of the request to the scanner: arrays
    and strings that are not empty, and [true]. *)
Definition kept (value : Value) : bool :=
  match value with
  | Strings l => (0 <? length l)%nat
  | Boolean b => b
  | Text s => (0 <? String.length s)%nat
  | Null | Undefined => false
  end.

Definition requestBody (params : PortScannerParams) : list (string * Value) :=
  List.filter (fun entry => kept (snd entry)) (entries params).

End PortScanner.

(** ** More configurations used in the examples *)

(** A rendering of the time left, and an [Object.prototype] whose
    names are not asked for. *)
Definition time_text_example : option JSNumber -> string := fun _ => "a moment".
Definition no_prototype_name : string -> option string := fun _ => None.

(** A limiter with two requests per second for the gpt-4 family and
    for the plugins, free tier. *)
Definition env_plugins : gmap string string :=
  <["RATELIMITER_TIME_PLUGINS_WINDOW_MINUTES" := "0.016666666666666666"]>
    (<["RATELIMITER_LIMIT_PLUGINS_FREE" := "2"]> env_example).

(** A store with two records. *)
Definition store_two (key1 : string) (ms1 : list Z) (key2 : string) (ms2 : list Z) : Redis :=
  mkRedis (<[key1 := mkSortedSet ms1 None]> {[ key2 := mkSortedSet ms2 None ]}) [].

(** ** Vocabulary of the properties *)

(** The setting consulted for a resource class and a tier. *)
Definition limit_key (model : string) (isPremium : bool) : string :=
  "RATELIMITER_LIMIT_" ++ _getFixedModelName model ++ "_" ++ tier_suffix isPremium.

(** A configured value that is not a number, or is below zero. *)
Definition invalid_limit (n : JSNumber) : Prop :=
  match n with
  | NaN => True
  | Num q => (q < 0)%Q
  end.

(** The store after the two reads of [getRemaining]. *)
Definition after_reads (key : string) (r : Redis) : Redis :=
  logged (ZCARD key) (logged (ZRANGE key) r).

(** The budget [getRemaining] computes from the members of the record. *)
Definition budget (timeWindow limit : JSNumber) (now : Z) (ms : list Z)
  : JSNumber * option JSNumber :=
  if falsy (head ms) then (limit, None)
  else
    let windowEndTime := add (Number_of (head ms)) timeWindow in
    if ge (of_Z now) windowEndTime then (limit, None)
    else
      let remaining := max (of_Z 0) (sub limit (of_Z (Z.of_nat (length ms)))) in
      (remaining,
       if strict_eq remaining (of_Z 0)
       then Some (sub windowEndTime (of_Z now))
       else None).

(** The transaction that starts a new window. *)
Definition new_window (key : string) (now : Z) (timeWindow : JSNumber) : list Command :=
  [DEL key; ZADD key now now; EXPIRE key (ceil (div1000 timeWindow))].

(** The record a new window starts with. *)
Definition fresh_record (now : Z) (seconds : Z) : SortedSet :=
  mkSortedSet [now] (Some (inject_Z seconds)).

(** The calls of one user on one resource class. *)
Definition admit_call (env : gmap string string) (Number : string -> JSNumber)
           (model userId : string) (isPremium : bool) (now_read now_write : Z)
  : M RateLimitResult :=
  _ratelimit env Number now_read now_write model userId isPremium.

(** Both clock reads of a call fall before the end of the window of
    [w] milliseconds opened at [opening]. *)
Definition before_window_end (w : Q) (opening : Z) (call : Z * Z) : Prop :=
  (inject_Z (fst call) < inject_Z opening + w)%Q
  /\ (inject_Z (snd call) < inject_Z opening + w)%Q.

(** The same for a window of [W] whole milliseconds. *)
Definition inside_window (W opening : Z) (call : Z * Z) : Prop :=
  fst call < opening + W /\ snd call < opening + W.

(** What the [k]-th call (from 0) answers under the limit [L] when
    [c] events are already recorded. *)
Definition answers (L c : Z) (results : list RateLimitResult) : Prop :=
  forall (k : nat) (res : RateLimitResult),
    results !! k = Some res ->
    allowed res = (c + Z.of_nat k <? L)
    /\ remaining res = of_Z (Z.max 0 (L - 1 - (c + Z.of_nat k))).

(** The answer of a limiter that is switched off. *)
Definition bypass : RateLimitResult := mkResult true (of_Z (-1)) None.

Definition peek (env : gmap string string) (Number : string -> JSNumber)
           (isPremiumUser : string -> bool) (now : Z) (userId model : string)
  : M RateLimitResult :=
  checkRateLimitWithoutIncrementing env Number isPremiumUser now userId model.

(** No record holds the instant [0]: what the reading of an absent
    record as a falsy first member relies on. *)
Definition timestamps_nonzero (r : Redis) : Prop :=
  forall key : string, ~ In 0 (members_of (data r) key).

(** An admission result is well formed when an allowed call carries
    no reset time and a denied call carries a positive one. *)
Definition well_formed (res : RateLimitResult) : Prop :=
  if allowed res then timeRemaining res = None
  else exists d : Q, timeRemaining res = Some (Num d) /\ (0 < d)%Q.

(** No colon in the string: the separator of the storage keys. *)
Fixpoint no_colon (s : string) : bool :=
  match s with
  | EmptyString => true
  | String c r => (negb (Ascii.eqb c ":"%char) && no_colon r)%bool
  end.

(** The write a check-and-increment call can send for a key. *)
Definition is_write_of (key : string) (now : Z) (q : Request) : Prop :=
  q = Single (ZADD key now now)
  \/ exists seconds, q = Transaction [DEL key; ZADD key now now; EXPIRE key seconds].

(** The number of events recorded under a key. *)
Definition cardinality (r : Redis) (key : string) : Z :=
  Z.of_nat (length (members_of (data r) key)).

(** The write clock of every call is not before its read clock. *)
Definition clock_monotone (calls : list (Z * Z)) : Prop :=
  Forall (fun call => fst call <= snd call) calls.

(** The character does not occur in the string. *)
Fixpoint lacks (c : ascii) (s : string) : bool :=
  match s with
  | EmptyString => true
  | String d r => (negb (Ascii.eqb d c) && lacks c r)%bool
  end.

(** A moderation level the detector can answer: [-1], or a number
    from [0] to [1]. *)
Definition moderation_in_range (m : JSNumber) : Prop :=
  m = of_Z (-1) \/ exists q : Q, m = Num q /\ (0 <= q)%Q /\ (q <= 1)%Q.

(** A name of letters and digits: spliced into a regular expression,
    it stands for itself. *)
Fixpoint is_word (s : string) : bool :=
  match s with
  | EmptyString => true
  | String c r =>
      let n := nat_of_ascii c in
      (((48 <=? n)%nat && (n <=? 57)%nat
        || (65 <=? n)%nat && (n <=? 90)%nat
        || (97 <=? n)%nat && (n <=? 122)%nat) && is_word r)%bool
  end.

(** The scan type and the top-ports value of the parameters are among
    those the scanner knows, and no error is set. *)
Definition well_formed_params (params : PortScanner.PortScannerParams) : Prop :=
  PortScanner.error params = None
  /\ In (PortScanner.scanType params) ["light"; "deep"; "custom"]
  /\ In (PortScanner.topPorts params) [""; "full"; "100"; "1000"].

(** * Properties *)

(** ** Numbers *)

Section Numbers.

Lemma Qred_inject_Z (z : Z) : Qred (inject_Z z) = inject_Z z.
Proof.
  apply Qred_identity. simpl. apply Z.gcd_1_r.
Qed.

Lemma Qred_of_Z (q : Q) (z : Z) : (q == inject_Z z)%Q -> Qred q = inject_Z z.
Proof.
  intros H. rewrite <- (Qred_inject_Z z). now apply Qred_complete.
Qed.

Lemma add_of_Z (x y : Z) : add (of_Z x) (of_Z y) = of_Z (x + y).
Proof.
  unfold add, of_Z. f_equal. apply Qred_of_Z. now rewrite inject_Z_plus.
Qed.

Lemma sub_of_Z (x y : Z) : sub (of_Z x) (of_Z y) = of_Z (x - y).
Proof.
  unfold sub, of_Z. f_equal. apply Qred_of_Z.
  unfold Z.sub. rewrite inject_Z_plus, inject_Z_opp. reflexivity.
Qed.

Lemma mul_of_Z (x y : Z) : mul (of_Z x) (of_Z y) = of_Z (x * y).
Proof.
  unfold mul, of_Z. f_equal. apply Qred_of_Z. now rewrite inject_Z_mult.
Qed.

Lemma Qle_bool_inject_Z (x y : Z) : Qle_bool (inject_Z x) (inject_Z y) = (x <=? y)%Z.
Proof.
  apply eq_true_iff_eq. rewrite Qle_bool_iff, Z.leb_le, <- Zle_Qle. reflexivity.
Qed.

Lemma ge_of_Z (x y : Z) : ge (of_Z x) (of_Z y) = (y <=? x)%Z.
Proof. apply Qle_bool_inject_Z. Qed.

Lemma lt_of_Z (x y : Z) : lt (of_Z x) (of_Z y) = (x <? y)%Z.
Proof.
  unfold lt, of_Z. rewrite Qle_bool_inject_Z, Z.ltb_antisym. reflexivity.
Qed.

Lemma strict_eq_of_Z (x y : Z) : strict_eq (of_Z x) (of_Z y) = (x =? y)%Z.
Proof.
  unfold strict_eq, of_Z. apply eq_true_iff_eq.
  rewrite Qeq_bool_iff, Z.eqb_eq. split.
  - apply inject_Z_injective.
  - intros ->. reflexivity.
Qed.

Lemma max_of_Z (x y : Z) : max (of_Z x) (of_Z y) = of_Z (Z.max x y).
Proof.
  unfold max, of_Z. rewrite Qle_bool_inject_Z.
  destruct (Z.leb_spec x y); f_equal; f_equal; lia.
Qed.

Lemma falsy_Some (t : Z) : falsy (Some t) = (t =? 0)%Z.
Proof.
  unfold falsy, truthy, of_Z. rewrite negb_involutive.
  apply (strict_eq_of_Z t 0).
Qed.

Lemma ge_true (a b : Q) : ge (Num a) (Num b) = true <-> (b <= a)%Q.
Proof. apply Qle_bool_iff. Qed.

Lemma ge_false (a b : Q) : ge (Num a) (Num b) = false <-> (a < b)%Q.
Proof.
  rewrite <- not_true_iff_false, ge_true. split.
  - apply Qnot_le_lt.
  - apply Qlt_not_le.
Qed.

(** [now >= first + w] as the limiter computes it. *)
Lemma window_end_reached (now first : Z) (w : Q) :
  ge (of_Z now) (add (of_Z first) (Num w)) = true
  <-> (inject_Z first + w <= inject_Z now)%Q.
Proof.
  unfold of_Z, add. rewrite ge_true, Qred_correct. reflexivity.
Qed.

Lemma window_end_ahead (now first : Z) (w : Q) :
  ge (of_Z now) (add (of_Z first) (Num w)) = false
  <-> (inject_Z now < inject_Z first + w)%Q.
Proof.
  unfold of_Z, add. rewrite ge_false, Qred_correct. reflexivity.
Qed.

(** [now - first >= w] as the limiter computes it. *)
Lemma window_lapsed (now first : Z) (w : Q) :
  ge (sub (of_Z now) (of_Z first)) (Num w) = true
  <-> (inject_Z first + w <= inject_Z now)%Q.
Proof.
  unfold of_Z, sub. rewrite ge_true, Qred_correct. split; intros H; lra.
Qed.

Lemma window_open (now first : Z) (w : Q) :
  ge (sub (of_Z now) (of_Z first)) (Num w) = false
  <-> (inject_Z now < inject_Z first + w)%Q.
Proof.
  unfold of_Z, sub. rewrite ge_false, Qred_correct. split; intros H; lra.
Qed.

Lemma ceil_div1000 (w : Q) :
  ceil (div1000 (Num w)) = of_Z (Qceiling (w / 1000)).
Proof.
  unfold ceil, div1000. now rewrite Qred_correct.
Qed.

End Numbers.

(** ** Key derivation *)

Section KeyDerivation.

Lemma string_length_app (s t : string) :
  String.length (s ++ t) = (String.length s + String.length t)%nat.
Proof. induction s as [|c s IH]; simpl; [reflexivity | now rewrite IH]. Qed.

(** A common suffix can be cancelled. *)
Lemma string_app_inv_tail (t s1 s2 : string) : s1 ++ t = s2 ++ t -> s1 = s2.
Proof.
  revert s2. induction s1 as [|c s1 IH]; intros [|c2 s2] H.
  - reflexivity.
  - apply (f_equal String.length) in H.
    rewrite !string_length_app in H. simpl in H. lia.
  - apply (f_equal String.length) in H.
    rewrite !string_length_app in H. simpl in H. lia.
  - simpl in H. injection H as -> H. f_equal. now apply IH.
Qed.

(** Every name of the gpt-4 family has the canonical name [GPT_4]. *)
Lemma gpt4_family (model : string) :
  startsWith model "gpt-4" = true -> _getFixedModelName model = "GPT_4".
Proof. unfold _getFixedModelName. now intros ->. Qed.

Lemma storage_key_inj_user (model u u2 : string) :
  _makeStorageKey u model = _makeStorageKey u2 model -> u = u2.
Proof.
  unfold _makeStorageKey. intros H.
  apply (inj (String.app "ratelimit:")) in H.
  now apply string_app_inv_tail in H.
Qed.

(** C9.  The storage key of a user is the same for ["gpt-4-turbo"]
    and for ["gpt-4"]; two distinct users have distinct keys for
    ["gpt-4"]; equal inputs give equal keys. *)
Theorem storage_key_derivation (u u2 : string) :
  _makeStorageKey u "gpt-4-turbo" = _makeStorageKey u "gpt-4"
  /\ (u <> u2 -> _makeStorageKey u "gpt-4" <> _makeStorageKey u2 "gpt-4")
  /\ (forall m m2 : string,
        u = u2 -> m = m2 -> _makeStorageKey u m = _makeStorageKey u2 m2).
Proof.
  split; [reflexivity | split].
  - intros Hne Heq. apply Hne. now apply storage_key_inj_user in Heq.
  - now intros m m2 -> ->.
Qed.

Lemma storage_key_derivation_witness :
  _makeStorageKey "alice" "gpt-4-turbo" = _makeStorageKey "alice" "gpt-4"
  /\ _makeStorageKey "alice" "gpt-4" <> _makeStorageKey "bob" "gpt-4"
  /\ _makeStorageKey "alice" "gpt-4" = "ratelimit:alice:GPT_4".
Proof.
  destruct (storage_key_derivation "alice" "bob") as (H1 & H2 & H3).
  split; [exact H1 | split].
  - apply H2. discriminate.
  - reflexivity.
Defined.

End KeyDerivation.

(** ** Limit resolution *)

Section LimitResolution.

Variable env : gmap string string.
Variable Number : string -> JSNumber.

Lemma invalid_limit_test (n : JSNumber) :
  (isNaN n || lt n (of_Z 0))%bool = true <-> invalid_limit n.
Proof.
  destruct n as [|q]; simpl; [tauto|].
  rewrite negb_true_iff. apply (ge_false q 0).
Qed.

Lemma String_eqb_plugins_key (model : string) :
  String.eqb model "plugins" = true -> toUpperCase model = _getFixedModelName model.
Proof. intros ->%String.eqb_eq. reflexivity. Qed.

(** Both branches of [_getLimit] consult [limit_key]. *)
Lemma _getLimit_unfold (model : string) (isPremium : bool) :
  _getLimit env Number model isPremium =
  let limit :=
    match env !! limit_key model isPremium with
    | None => default_limit isPremium
    | Some v => Number v
    end in
  if (isNaN limit || lt limit (of_Z 0))%bool
  then Throw InvalidLimitConfiguration
  else Ok limit.
Proof.
  unfold _getLimit, limit_key.
  destruct (String.eqb model "plugins") eqn:E; [|reflexivity].
  now rewrite (String_eqb_plugins_key _ E).
Qed.

(** The setting of a tier carries the name of the tier. *)
Lemma limit_key_tiers (model : string) :
  limit_key model true = "RATELIMITER_LIMIT_" ++ _getFixedModelName model ++ "_PREMIUM"
  /\ limit_key model false = "RATELIMITER_LIMIT_" ++ _getFixedModelName model ++ "_FREE".
Proof. split; reflexivity. Qed.

(** What the test of [_getLimit] does.  Without a configured ceiling
    the limit is 15 (free) or 30 (premium); a configured value that
    [Number] reads as [NaN] or as a negative number raises the
    configuration error; any other configured value is returned as
    [Number] reads it; and the error is raised in no other case. *)
Theorem getLimit_resolution (model : string) (isPremium : bool) :
  (env !! limit_key model isPremium = None ->
     _getLimit env Number model isPremium
     = Ok (if isPremium then of_Z 30 else of_Z 15))
  /\ (forall v, env !! limit_key model isPremium = Some v ->
        invalid_limit (Number v) ->
        _getLimit env Number model isPremium = Throw InvalidLimitConfiguration)
  /\ (forall v, env !! limit_key model isPremium = Some v ->
        ~ invalid_limit (Number v) ->
        _getLimit env Number model isPremium = Ok (Number v))
  /\ ((exists e, _getLimit env Number model isPremium = Throw e)
      <-> exists v, env !! limit_key model isPremium = Some v
                    /\ invalid_limit (Number v)).
Proof.
  rewrite _getLimit_unfold.
  destruct (env !! limit_key model isPremium) as [v|] eqn:E; cbn zeta.
  - destruct (isNaN (Number v) || lt (Number v) (of_Z 0))%bool eqn:T.
    + apply invalid_limit_test in T. split; [discriminate|].
      split; [reflexivity|]. split; [|split].
      * intros v' Hv' Hgood. injection Hv' as <-. now destruct Hgood.
      * intros _. exists v. tauto.
      * intros _. now exists InvalidLimitConfiguration.
    + assert (~ invalid_limit (Number v)) as Hv
        by (rewrite <- invalid_limit_test, T; discriminate).
      split; [discriminate|]. split; [|split; [|split]].
      * intros v' Hv' Hbad. injection Hv' as <-. now destruct Hv.
      * intros v' Hv' _. now injection Hv' as <-.
      * intros [e He]. discriminate.
      * intros (v' & Hv' & Hbad). injection Hv' as <-. now destruct Hv.
  - split; [|split; [|split; [|split]]]; try discriminate.
    + intros _. now destruct isPremium.
    + intros [e He]. destruct isPremium; discriminate.
    + intros (v & Hv & _). discriminate.
Qed.

End LimitResolution.

Lemma getLimit_resolution_witness :
  _getLimit ∅ Number_example "hackergpt" false = Ok (of_Z 15)
  /\ _getLimit (<["RATELIMITER_LIMIT_HACKERGPT_FREE" := "-1"]> ∅) Number_example "hackergpt" false
     = Throw InvalidLimitConfiguration
  /\ _getLimit (<["RATELIMITER_LIMIT_HACKERGPT_FREE" := "3"]> ∅) Number_example "hackergpt" false
     = Ok (of_Z 3).
Proof.
  split; [|split].
  - apply (getLimit_resolution ∅ Number_example "hackergpt" false). reflexivity.
  - apply (getLimit_resolution _ Number_example "hackergpt" false) with (v := "-1").
    + reflexivity.
    + reflexivity.
  - apply (getLimit_resolution _ Number_example "hackergpt" false) with (v := "3").
    + reflexivity.
    + vm_compute. discriminate.
Defined.

(** ** Window accounting *)

Section WindowAccounting.

Variable env : gmap string string.
Variable Number : string -> JSNumber.

Lemma head_zrange_reply (d : gmap string SortedSet) (key : string) :
  head (zrange_reply d key) = head (members_of d key).
Proof. unfold zrange_reply. now destruct (members_of d key). Qed.

(** [getRemaining] reads the record twice and computes [budget]. *)
Lemma getRemaining_run (now : Z) (userId model : string) (isPremium : bool)
      (r : Redis) (limit : JSNumber) :
  _getLimit env Number model isPremium = Ok limit ->
  getRemaining env Number now userId model isPremium r
  = Ok (budget (getTimeWindow env Number model) limit now
               (members_of (data r) (_makeStorageKey userId model)),
        after_reads (_makeStorageKey userId model) r).
Proof.
  intros Hl. unfold getRemaining. rewrite Hl.
  unfold bind, zrange, zcard, budget. cbn [data logged].
  rewrite head_zrange_reply.
  destruct (falsy (head (members_of (data r) (_makeStorageKey userId model)))); [reflexivity|].
  destruct (ge _ _); reflexivity.
Qed.

Lemma getRemaining_throw (now : Z) (userId model : string) (isPremium : bool)
      (r : Redis) (e : Failure) :
  _getLimit env Number model isPremium = Throw e ->
  getRemaining env Number now userId model isPremium r = Throw e.
Proof. intros Hl. unfold getRemaining. now rewrite Hl. Qed.


End WindowAccounting.

(** ** Mutation *)

Section Mutation.

Variable env : gmap string string.
Variable Number : string -> JSNumber.

Lemma apply_new_window (key : string) (now : Z) (w : Q) (d : gmap string SortedSet) :
  apply_all (new_window key now (Num w)) d
  = Ok (<[key := fresh_record now (Qceiling (w / 1000))]> d).
Proof.
  unfold new_window. rewrite ceil_div1000.
  cbn [apply_all apply_write]. unfold zadd_data, del_data.
  rewrite lookup_delete_eq. cbn [expire_data of_Z].
  rewrite lookup_insert_eq. cbn [members].
  now rewrite insert_insert_eq, insert_delete_eq.
Qed.

Lemma members_of_insert (key : string) (s : SortedSet) (d : gmap string SortedSet) :
  members_of (<[key := s]> d) key = members s.
Proof. unfold members_of. now rewrite lookup_insert_eq. Qed.

Lemma members_of_insert_ne (key key' : string) (s : SortedSet) (d : gmap string SortedSet) :
  key <> key' -> members_of (<[key := s]> d) key' = members_of d key'.
Proof. intros H. unfold members_of. now rewrite lookup_insert_ne. Qed.

Lemma members_of_zadd (key : string) (t : Z) (d : gmap string SortedSet) :
  members_of (zadd_data key t d) key = insert_member t (members_of d key).
Proof.
  unfold zadd_data, members_of.
  destruct (d !! key) as [s|]; now rewrite lookup_insert_eq.
Qed.

(** [_addRequest] reads the earliest member, then writes. *)
Lemma _addRequest_run (now : Z) (key model : string) (r : Redis) :
  _addRequest env Number now key model r
  = let ms := members_of (data r) key in
    let timeWindow := getTimeWindow env Number model in
    if (falsy (head ms) || ge (sub (of_Z now) (Number_of (head ms))) timeWindow)%bool
    then multi_exec (new_window key now timeWindow) (logged (ZRANGE key) r)
    else zadd key now now (logged (ZRANGE key) r).
Proof.
  unfold _addRequest, bind, zrange. rewrite head_zrange_reply. cbn zeta.
  destruct (falsy _ || _)%bool; reflexivity.
Qed.

Lemma insert_member_In (t : Z) (l : list Z) : In t (insert_member t l).
Proof.
  induction l as [|x l IH]; simpl; [now left|].
  destruct (Z.ltb_spec t x); [now left|].
  destruct (Z.eqb_spec t x); [subst; now left | now right].
Qed.

Lemma insert_member_length_new (t : Z) (l : list Z) :
  ~ In t l -> length (insert_member t l) = S (length l).
Proof.
  induction l as [|x l IH]; simpl; intros Hn; [reflexivity|].
  destruct (Z.ltb_spec t x); [reflexivity|].
  destruct (Z.eqb_spec t x); [subst; tauto|].
  simpl. rewrite IH; tauto.
Qed.

(** C3.  When the record has no member, or the window opened by its
    earliest member has lapsed ([now - earliest >= window]),
    [_addRequest] sends one transaction that deletes the record,
    inserts the single event [now] (member and score) and sets the
    expiry to [ceil(window / 1000)] seconds.  Otherwise it sends one
    [zadd] of the event [now] to the existing record, whose expiry
    stays as it was. *)
Theorem addRequest_cases (now : Z) (key model : string) (r : Redis) (w : Q) :
  getTimeWindow env Number model = Num w ->
  let ms := members_of (data r) key in
  let seconds := Qceiling (w / 1000) in
  ((ms = [] \/ exists earliest, head ms = Some earliest
                                /\ (w <= inject_Z now - inject_Z earliest)%Q) ->
     exists r',
       _addRequest env Number now key model r = Ok (tt, r')
       /\ data r' = <[key := mkSortedSet [now] (Some (inject_Z seconds))]> (data r)
       /\ log r' = Transaction [DEL key; ZADD key now now; EXPIRE key (of_Z seconds)]
                     :: Single (ZRANGE key) :: log r)
  /\ (forall s earliest,
        data r !! key = Some s -> head (members s) = Some earliest -> earliest <> 0 ->
        (inject_Z now - inject_Z earliest < w)%Q ->
        exists r',
          _addRequest env Number now key model r = Ok (tt, r')
          /\ data r' = <[key := mkSortedSet (insert_member now (members s)) (ttl s)]> (data r)
          /\ In now (insert_member now (members s))
          /\ (~ In now (members s) ->
              length (insert_member now (members s)) = S (length (members s)))
          /\ log r' = Single (ZADD key now now) :: Single (ZRANGE key) :: log r).
Proof.
  intros Hw ms seconds. rewrite _addRequest_run, Hw. fold ms. cbn zeta. split.
  - intros Hreset.
    assert ((falsy (head ms)
             || ge (sub (of_Z now) (Number_of (head ms))) (Num w))%bool = true) as ->.
    { destruct Hreset as [-> | (earliest & -> & Hlapsed)]; [reflexivity|].
      apply orb_true_iff. right. cbn [Number_of]. apply window_lapsed. lra. }
    unfold multi_exec. cbn [data logged]. rewrite apply_new_window.
    eexists. split; [reflexivity|]. cbn [data log]. split; [reflexivity|].
    unfold new_window. now rewrite ceil_div1000.
  - intros s earliest Hs Hhead Hnz Hopen.
    assert (ms = members s) as Hms by (unfold ms, members_of; now rewrite Hs).
    assert ((falsy (head ms)
             || ge (sub (of_Z now) (Number_of (head ms))) (Num w))%bool = false) as ->.
    { rewrite Hms, Hhead, falsy_Some. apply orb_false_iff. split.
      - now apply Z.eqb_neq.
      - cbn [Number_of]. apply window_open. lra. }
    unfold zadd. cbn [data logged log]. unfold zadd_data. rewrite Hs.
    eexists. split; [reflexivity|]. cbn [data log].
    split; [reflexivity|]. split; [apply insert_member_In|].
    split; [apply insert_member_length_new | reflexivity].
Qed.

End Mutation.

(** ** Admission *)

Section Admission.

Variable env : gmap string string.
Variable Number : string -> JSNumber.

(** [_ratelimit] in terms of [budget] and [_addRequest]. *)
Lemma _ratelimit_run (now_read now_write : Z) (model userId : string)
      (isPremium : bool) (r : Redis) (limit : JSNumber) :
  _getLimit env Number model isPremium = Ok limit ->
  _ratelimit env Number now_read now_write model userId isPremium r
  = let key := _makeStorageKey userId model in
    let b := budget (getTimeWindow env Number model) limit now_read
                    (members_of (data r) key) in
    if strict_eq (fst b) (of_Z 0) then
      Ok (mkResult false (fst b) (snd b), after_reads key r)
    else
      match _addRequest env Number now_write key model (after_reads key r) with
      | Ok (_, r') => Ok (mkResult true (sub (fst b) (of_Z 1)) None, r')
      | Throw e => Throw e
      end.
Proof.
  intros Hl. unfold _ratelimit, bind at 1.
  rewrite (getRemaining_run _ _ _ _ _ _ _ _ Hl). cbn zeta.
  destruct (strict_eq _ _); [reflexivity|].
  unfold bind. destruct (_addRequest _ _ _ _ _ _) as [[[] r']|e]; reflexivity.
Qed.

Lemma _ratelimit_throw (now_read now_write : Z) (model userId : string)
      (isPremium : bool) (r : Redis) (e : Failure) :
  _getLimit env Number model isPremium = Throw e ->
  _ratelimit env Number now_read now_write model userId isPremium r = Throw e.
Proof.
  intros Hl. unfold _ratelimit, bind.
  now rewrite (getRemaining_throw _ _ _ _ _ _ _ _ Hl).
Qed.

(** A member above all the others goes last. *)
Lemma insert_member_last (t : Z) (l : list Z) :
  Forall (fun m => m < t) l -> insert_member t l = (l ++ [t])%list.
Proof.
  induction 1 as [|x l Hx _ IH]; simpl; [reflexivity|].
  destruct (Z.ltb_spec t x); [lia|].
  destruct (Z.eqb_spec t x); [lia|]. now rewrite IH.
Qed.

Variables (model userId : string) (isPremium : bool) (L : Z) (w : Q).
Hypothesis limit_is : _getLimit env Number model isPremium = Ok (of_Z L).
Hypothesis window_is : getTimeWindow env Number model = Num w.

Local Abbreviation admit_here := (admit_call env Number model userId isPremium).
Local Abbreviation answers_here := (answers L).
Local Abbreviation in_window := (before_window_end w).

Let key := _makeStorageKey userId model.

Lemma limit_nonneg : 0 <= L.
Proof.
  pose proof limit_is as H. rewrite _getLimit_unfold in H. cbn zeta in H.
  destruct (isNaN _ || lt _ _)%bool eqn:T; [discriminate|].
  injection H as H. rewrite H in T. cbn [isNaN orb] in T.
  rewrite lt_of_Z in T. lia.
Qed.

(** A call on a record with no member: the whole limit is available,
    and an admitted call opens the window at its write instant. *)
Lemma admit_fresh (now_read now_write : Z) (r : Redis) :
  members_of (data r) key = [] ->
  exists res r',
    _ratelimit env Number now_read now_write model userId isPremium r = Ok (res, r')
    /\ allowed res = (0 <? L)
    /\ remaining res = of_Z (Z.max 0 (L - 1))
    /\ timeRemaining res = None
    /\ members_of (data r') key = (if 0 <? L then [now_write] else []).
Proof.
  intros Hms. pose proof limit_nonneg as HL. unfold key in *.
  rewrite (_ratelimit_run _ _ _ _ _ _ _ limit_is). cbn zeta. rewrite Hms.
  cbn [budget head falsy fst snd]. cbn zeta. rewrite strict_eq_of_Z.
  destruct (Z.eqb_spec L 0) as [->|Hne].
  - eexists _, _. split; [reflexivity|].
    cbn [allowed remaining timeRemaining after_reads logged data].
    now rewrite Hms.
  - rewrite _addRequest_run, window_is. cbn [after_reads logged data]. rewrite Hms.
    cbn [head falsy orb]. unfold multi_exec. cbn [logged data].
    rewrite apply_new_window. eexists _, _. split; [reflexivity|].
    cbn [allowed remaining timeRemaining data]. rewrite members_of_insert, sub_of_Z.
    destruct (Z.ltb_spec 0 L); [|lia].
    repeat split; try reflexivity. f_equal. lia.
Qed.

(** A call inside the window opened by [opening], at a write instant
    above every recorded one. *)
Lemma admit_in_window (now_read now_write opening : Z) (rest : list Z) (r : Redis) :
  members_of (data r) key = opening :: rest ->
  opening <> 0 ->
  (inject_Z now_read < inject_Z opening + w)%Q ->
  (inject_Z now_write < inject_Z opening + w)%Q ->
  Forall (fun m => m < now_write) (opening :: rest) ->
  let c := Z.of_nat (length (opening :: rest)) in
  exists res r',
    _ratelimit env Number now_read now_write model userId isPremium r = Ok (res, r')
    /\ allowed res = (c <? L)
    /\ remaining res = of_Z (Z.max 0 (L - 1 - c))
    /\ timeRemaining res
       = (if c <? L then None
          else Some (sub (add (of_Z opening) (Num w)) (of_Z now_read)))
    /\ members_of (data r') key
       = (if c <? L then ((opening :: rest) ++ [now_write])%list else opening :: rest).
Proof.
  intros Hms Hnz Hread Hwrite Hbelow c. unfold key in *.
  rewrite (_ratelimit_run _ _ _ _ _ _ _ limit_is). cbn zeta. rewrite Hms, window_is.
  unfold budget. cbn [head Number_of]. rewrite falsy_Some.
  apply Z.eqb_neq in Hnz as Hnz'. rewrite Hnz'.
  apply window_end_ahead in Hread as ->. fold c.
  rewrite sub_of_Z, max_of_Z. cbn [fst snd]. rewrite strict_eq_of_Z.
  destruct (Z.ltb_spec c L) as [Hlt|Hge].
  - destruct (Z.eqb_spec (Z.max 0 (L - c)) 0); [lia|].
    rewrite _addRequest_run, window_is. cbn [after_reads logged data].
    rewrite Hms. cbn [head Number_of]. rewrite falsy_Some, Hnz'.
    assert (ge (sub (of_Z now_write) (of_Z opening)) (Num w) = false) as ->
      by now apply window_open.
    cbn [orb]. unfold zadd. cbn [logged data log].
    eexists _, _. split; [reflexivity|]. unfold after_reads, logged.
    cbn [allowed remaining timeRemaining data].
    rewrite members_of_zadd, Hms, (insert_member_last _ _ Hbelow), sub_of_Z.
    repeat split; try reflexivity. f_equal. lia.
  - destruct (Z.eqb_spec (Z.max 0 (L - c)) 0); [|lia].
    eexists _, _. split; [reflexivity|].
    cbn [allowed remaining timeRemaining after_reads logged data].
    repeat split; try assumption. f_equal. lia.
Qed.

(** A call after the window opened by [opening] has lapsed starts a
    new window at its write instant. *)
Lemma admit_lapsed (now_read now_write opening : Z) (rest : list Z) (r : Redis) :
  members_of (data r) key = opening :: rest ->
  (inject_Z opening + w <= inject_Z now_read)%Q ->
  (inject_Z opening + w <= inject_Z now_write)%Q ->
  0 < L ->
  exists res r',
    _ratelimit env Number now_read now_write model userId isPremium r = Ok (res, r')
    /\ allowed res = true
    /\ remaining res = of_Z (L - 1)
    /\ timeRemaining res = None
    /\ members_of (data r') key = [now_write].
Proof.
  intros Hms Hread Hwrite HL. unfold key in *.
  rewrite (_ratelimit_run _ _ _ _ _ _ _ limit_is). cbn zeta. rewrite Hms, window_is.
  assert (budget (Num w) (of_Z L) now_read (opening :: rest) = (of_Z L, None)) as ->.
  { unfold budget. destruct (falsy _); [reflexivity|]. cbn [head Number_of].
    apply window_end_reached in Hread. now rewrite Hread. }
  cbn [fst snd]. rewrite strict_eq_of_Z.
  destruct (Z.eqb_spec L 0); [lia|].
  rewrite _addRequest_run, window_is. unfold after_reads, logged. cbn [data].
  rewrite Hms. cbn [head Number_of].
  assert (ge (sub (of_Z now_write) (of_Z opening)) (Num w) = true) as ->
    by now apply window_lapsed.
  rewrite orb_true_r. unfold multi_exec. cbn [data].
  rewrite apply_new_window. eexists _, _. split; [reflexivity|].
  cbn [allowed remaining timeRemaining data]. rewrite members_of_insert, sub_of_Z.
  repeat split; reflexivity.
Qed.

Lemma answers_cons (c : Z) (res : RateLimitResult) (results : list RateLimitResult) :
  allowed res = (c <? L) ->
  remaining res = of_Z (Z.max 0 (L - 1 - c)) ->
  answers_here (c + 1) results ->
  answers_here c (res :: results).
Proof.
  intros Ha Hr Hrest n res' Hk. destruct n as [|k].
  - injection Hk as <-. rewrite Z.add_0_r. now split.
  - apply Hrest in Hk as [Ha' Hr'].
    replace (c + Z.of_nat (S k)) with (c + 1 + Z.of_nat k) by lia. now split.
Qed.

(** Once the limit is reached the answers_here no longer depend on the
    number of recorded events. *)
Lemma answers_exhausted (c c' : Z) (results : list RateLimitResult) :
  L <= c -> L <= c' -> answers_here c results -> answers_here c' results.
Proof.
  intros Hc Hc' H k res Hk. apply H in Hk as [Ha Hr]. split.
  - rewrite Ha. destruct (Z.ltb_spec (c + Z.of_nat k) L),
      (Z.ltb_spec (c' + Z.of_nat k) L); lia || reflexivity.
  - rewrite Hr. f_equal. lia.
Qed.

Lemma admit_all_cons (now_read now_write : Z) (calls : list (Z * Z)) (r r1 r2 : Redis)
      (res : RateLimitResult) (results : list RateLimitResult) :
  admit_here now_read now_write r = Ok (res, r1) ->
  admit_all admit_here calls r1 = Ok (results, r2) ->
  admit_all admit_here ((now_read, now_write) :: calls) r = Ok (res :: results, r2).
Proof.
  intros H1 H2. cbn [admit_all]. unfold bind at 1. rewrite H1.
  unfold bind at 1. rewrite H2. reflexivity.
Qed.

(** Calls inside an open window, at write instants that increase and
    exceed the recorded ones. *)
Lemma admit_all_in_window (calls : list (Z * Z)) :
  forall (r : Redis) (opening : Z) (rest : list Z),
    members_of (data r) key = opening :: rest ->
    opening <> 0 ->
    Forall (in_window opening) calls ->
    StronglySorted Z.lt (map snd calls) ->
    Forall (fun call => Forall (fun m => m < snd call) (opening :: rest)) calls ->
    exists results r',
      admit_all admit_here calls r = Ok (results, r')
      /\ length results = length calls
      /\ answers_here (Z.of_nat (length (opening :: rest))) results.
Proof.
  induction calls as [|[now_read now_write] calls IH];
    intros r opening rest Hms Hnz Hwin Hsorted Hbelow.
  - exists [], r. split; [reflexivity|]. split; [reflexivity|].
    intros k res Hk. discriminate.
  - apply Forall_cons in Hwin as [[Hread Hwrite] Hwin].
    apply Forall_cons in Hbelow as [Hbelow1 Hbelow].
    apply StronglySorted_inv in Hsorted as [Hsorted Hlater].
    cbn [fst snd map] in *.
    destruct (admit_in_window now_read now_write opening rest r
                Hms Hnz Hread Hwrite Hbelow1)
      as (res & r1 & Hrun & Hall & Hrem & Htime & Hms1).
    set (c := Z.of_nat (length (opening :: rest))) in *.
    destruct (Z.lt_ge_cases c L) as [Hlt|Hge].
    + apply Z.ltb_lt in Hlt as E. rewrite E in Hms1.
      destruct (IH r1 opening (rest ++ [now_write])%list) as (results & r2 & Hruns & Hlen & Hans).
      * exact Hms1.
      * exact Hnz.
      * exact Hwin.
      * exact Hsorted.
      * apply Forall_forall. intros call Hcall.
        change (opening :: (rest ++ [now_write])%list)
          with ((opening :: rest) ++ [now_write])%list.
        apply Forall_app. split.
        -- rewrite Forall_forall in Hbelow. now apply Hbelow.
        -- apply Forall_singleton. rewrite Forall_forall in Hlater.
           apply Hlater. apply list_elem_of_fmap. now exists call.
      * exists (res :: results), r2. split; [exact (admit_all_cons _ _ _ _ _ _ _ _ Hrun Hruns)|].
        split; [cbn [length]; now rewrite Hlen|].
        apply answers_cons; [assumption | assumption |].
        replace (c + 1) with (Z.of_nat (length (opening :: (rest ++ [now_write])%list)));
          [assumption|].
        unfold c. cbn [length]. rewrite length_app. cbn [length]. lia.
    + apply Z.ltb_ge in Hge as E. rewrite E in Hms1.
      destruct (IH r1 opening rest Hms1 Hnz Hwin Hsorted Hbelow)
        as (results & r2 & Hruns & Hlen & Hans).
      exists (res :: results), r2. split; [exact (admit_all_cons _ _ _ _ _ _ _ _ Hrun Hruns)|].
      split; [cbn [length]; now rewrite Hlen|].
      apply answers_cons; [assumption | assumption |].
      apply (answers_exhausted c); [lia | lia | assumption].
Qed.

(** With a limit of [0] nothing is ever recorded and every call is denied. *)
Lemma admit_all_closed (calls : list (Z * Z)) :
  L = 0 ->
  forall r : Redis,
    members_of (data r) key = [] ->
    exists results r',
      admit_all admit_here calls r = Ok (results, r')
      /\ length results = length calls
      /\ answers_here 0 results.
Proof.
  intros HL. induction calls as [|[now_read now_write] calls IH]; intros r Hms.
  - exists [], r. split; [reflexivity|]. split; [reflexivity|].
    intros k res Hk. discriminate.
  - destruct (admit_fresh now_read now_write r Hms) as (res & r1 & Hrun & Hall & Hrem & Htime & Hms1).
    assert ((0 <? L) = false) as E by (apply Z.ltb_ge; lia).
    rewrite E in Hms1.
    destruct (IH r1 Hms1) as (results & r2 & Hruns & Hlen & Hans).
    exists (res :: results), r2. split; [exact (admit_all_cons _ _ _ _ _ _ _ _ Hrun Hruns)|].
    split; [cbn [length]; now rewrite Hlen|].
    apply answers_cons.
    + exact Hall.
    + rewrite Hrem. f_equal. lia.
    + apply (answers_exhausted 0); [lia | lia | assumption].
Qed.

(** The calls of one window, from a record with no member. *)
Lemma admit_all_answers (r : Redis) (now_read opening : Z) (later : list (Z * Z)) :
  members_of (data r) key = [] ->
  opening <> 0 ->
  StronglySorted Z.lt (opening :: map snd later) ->
  Forall (in_window opening) later ->
  exists results r',
    admit_all admit_here ((now_read, opening) :: later) r = Ok (results, r')
    /\ length results = S (length later)
    /\ answers_here 0 results.
Proof.
  intros Hms Hnz Hsorted Hwin.
  destruct (Z.eq_dec L 0) as [HL|HL].
  - apply (admit_all_closed ((now_read, opening) :: later) HL r Hms).
  - pose proof limit_nonneg as Hpos.
    destruct (admit_fresh now_read opening r Hms) as (res & r1 & Hrun & Hall & Hrem & Htime & Hms1).
    assert ((0 <? L) = true) as E by (apply Z.ltb_lt; lia).
    rewrite E in Hms1.
    apply StronglySorted_inv in Hsorted as [Hsorted Hlater].
    destruct (admit_all_in_window later r1 opening [] Hms1 Hnz Hwin Hsorted)
      as (results & r2 & Hruns & Hlen & Hans).
    { apply Forall_forall. intros call Hcall. apply Forall_singleton.
      rewrite Forall_forall in Hlater. apply Hlater.
      apply list_elem_of_fmap. now exists call. }
    exists (res :: results), r2.
    split; [exact (admit_all_cons _ _ _ _ _ _ _ _ Hrun Hruns)|].
    split; [cbn [length]; now rewrite Hlen|].
    apply answers_cons; [exact Hall | rewrite Hrem; f_equal; lia | exact Hans].
Qed.

End Admission.

Section Consumption.

Variable env : gmap string string.
Variable Number : string -> JSNumber.
Variables (model userId : string) (isPremium : bool) (L W : Z).
Hypothesis limit_is : _getLimit env Number model isPremium = Ok (of_Z L).
Hypothesis window_is : getTimeWindow env Number model = of_Z W.

Lemma inside_before_window_end (opening : Z) (call : Z * Z) :
  inside_window W opening call -> before_window_end (inject_Z W) opening call.
Proof.
  intros [Hread Hwrite]. split; rewrite <- inject_Z_plus, <- Zlt_Qlt; assumption.
Qed.

(** C1, as the code has it.  Take a whole limit [L] and a window of
    [W] whole milliseconds.  Start from a record with no member and
    let the calls be written at increasing instants (so no two
    in the same millisecond), the first of them not [0], all of them
    read and written before the window opened by the first call ends.
    Then every call returns; call number [k] (from 0) is allowed
    exactly when [k < L] and answers [remaining = max(0, L - 1 - k)].
    Hence [remaining] never increases along the calls, it is [0] at
    the [L]-th call, which is the last one admitted, and every later
    call is denied with [remaining = 0]. *)
Theorem monotonic_consumption (r : Redis) (now_read opening : Z) (later : list (Z * Z)) :
  members_of (data r) (_makeStorageKey userId model) = [] ->
  opening <> 0 ->
  StronglySorted Z.lt (opening :: map snd later) ->
  Forall (inside_window W opening) later ->
  exists results r',
    admit_all (admit_call env Number model userId isPremium)
              ((now_read, opening) :: later) r = Ok (results, r')
    /\ length results = S (length later)
    /\ (forall (k : nat) res, results !! k = Some res ->
          allowed res = (Z.of_nat k <? L)
          /\ remaining res = of_Z (Z.max 0 (L - 1 - Z.of_nat k)))
    /\ (forall (j k : nat) rj rk, (j <= k)%nat ->
          results !! j = Some rj -> results !! k = Some rk ->
          exists a b, remaining rj = of_Z a /\ remaining rk = of_Z b /\ b <= a)
    /\ (forall (k : nat) res, results !! k = Some res -> Z.of_nat k = L - 1 ->
          allowed res = true /\ remaining res = of_Z 0)
    /\ (forall (k : nat) res, results !! k = Some res -> L <= Z.of_nat k ->
          allowed res = false /\ remaining res = of_Z 0).
Proof.
  intros Hms Hnz Hsorted Hwin.
  destruct (admit_all_answers env Number model userId isPremium L (inject_Z W)
              limit_is window_is r now_read opening later Hms Hnz Hsorted)
    as (results & r' & Hrun & Hlen & Hans).
  { eapply Forall_impl; [exact Hwin|]. intros call. apply inside_before_window_end. }
  exists results, r'. split; [exact Hrun|]. split; [exact Hlen|].
  split; [|split; [|split]].
  - intros k res Hk. apply Hans in Hk. exact Hk.
  - intros j k rj rk Hjk Hj Hk.
    apply Hans in Hj as [_ Hj]. apply Hans in Hk as [_ Hk].
    eexists _, _. split; [exact Hj|]. split; [exact Hk|]. lia.
  - intros k res Hk HkL. apply Hans in Hk as [Ha Hr]. split.
    + rewrite Ha. apply Z.ltb_lt. lia.
    + rewrite Hr. f_equal. lia.
  - intros k res Hk HkL. apply Hans in Hk as [Ha Hr]. split.
    + rewrite Ha. apply Z.ltb_ge. lia.
    + rewrite Hr. f_equal. lia.
Qed.

End Consumption.

(** ** The window-reset scenario *)

Section WindowReset.

Variable env : gmap string string.
Variable Number : string -> JSNumber.
Variables (model userId : string) (isPremium : bool).

Hypothesis two_per_window : _getLimit env Number model isPremium = Ok (of_Z 2).
Hypothesis one_second : getTimeWindow env Number model = of_Z 1000.

Lemma result_eta (res : RateLimitResult) (a : bool) (n : JSNumber) (t : option JSNumber) :
  allowed res = a -> remaining res = n -> timeRemaining res = t ->
  res = mkResult a n t.
Proof. destruct res. cbn. now intros -> -> ->. Qed.

(** Comparisons of instants, through [inject_Z]. *)
Ltac instants :=
  rewrite <- ?inject_Z_plus;
  first [rewrite <- Zlt_Qlt | rewrite <- Zle_Qle]; lia.

(** C5, as the code has it.  With a limit of 2 and a window of
    1000 ms, on a record with no member and for every instant [t]
    other than [0]: calls at [t], [t + 100], [t + 200] and
    [t + 1001] answer [Allowed{remaining = 1}],
    [Allowed{remaining = 0}], [Denied{timeRemaining = 800}] and
    [Allowed{remaining = 1}], the last in a new window. *)
Theorem window_reset (t : Z) (r : Redis) :
  members_of (data r) (_makeStorageKey userId model) = [] ->
  t <> 0 ->
  results_of
    (admit_all (admit_call env Number model userId isPremium)
               (at_instants [t; t + 100; t + 200; t + 1001]) r)
  = Some [mkResult true (of_Z 1) None;
          mkResult true (of_Z 0) None;
          mkResult false (of_Z 0) (Some (of_Z 800));
          mkResult true (of_Z 1) None].
Proof.
  intros Hms Hnz.
  destruct (admit_fresh env Number model userId isPremium 2 (inject_Z 1000)
              two_per_window one_second t t r Hms)
    as (res1 & r1 & Hrun1 & Ha1 & Hn1 & Ht1 & Hms1).
  cbn in Ha1, Hn1, Hms1.
  destruct (admit_in_window env Number model userId isPremium 2 (inject_Z 1000)
              two_per_window one_second (t + 100) (t + 100) t [] r1 Hms1 Hnz)
    as (res2 & r2 & Hrun2 & Ha2 & Hn2 & Ht2 & Hms2);
    [instants | instants | repeat constructor; lia |].
  cbn in Ha2, Hn2, Ht2, Hms2.
  destruct (admit_in_window env Number model userId isPremium 2 (inject_Z 1000)
              two_per_window one_second (t + 200) (t + 200) t [t + 100] r2 Hms2 Hnz)
    as (res3 & r3 & Hrun3 & Ha3 & Hn3 & Ht3 & Hms3);
    [instants | instants | repeat constructor; lia |].
  change (Z.of_nat (length [t; t + 100]) <? 2) with false in Ht3.
  cbn in Ha3, Hn3, Hms3.
  destruct (admit_lapsed env Number model userId isPremium 2 (inject_Z 1000)
              two_per_window one_second (t + 1001) (t + 1001) t [t + 100] r3 Hms3)
    as (res4 & r4 & Hrun4 & Ha4 & Hn4 & Ht4 & Hms4);
    [instants | instants | lia |].
  cbn in Hn4.
  change (Num (inject_Z 1000)) with (of_Z 1000) in Ht3.
  rewrite add_of_Z, sub_of_Z in Ht3.
  replace (t + 1000 - (t + 200)) with 800 in Ht3 by lia.
  rewrite (result_eta _ _ _ _ Ha1 Hn1 Ht1) in Hrun1.
  rewrite (result_eta _ _ _ _ Ha2 Hn2 Ht2) in Hrun2.
  rewrite (result_eta _ _ _ _ Ha3 Hn3 Ht3) in Hrun3.
  rewrite (result_eta _ _ _ _ Ha4 Hn4 Ht4) in Hrun4.
  cbn [at_instants map].
  erewrite admit_all_cons; [reflexivity | exact Hrun1 |].
  erewrite admit_all_cons; [reflexivity | exact Hrun2 |].
  erewrite admit_all_cons; [reflexivity | exact Hrun3 |].
  erewrite admit_all_cons; [reflexivity | exact Hrun4 |].
  reflexivity.
Qed.

End WindowReset.

(** ** The public operations *)

Section PublicOperations.

Variable env : gmap string string.
Variable Number : string -> JSNumber.
Variable isPremiumUser : string -> bool.

Local Abbreviation peek_here := (peek env Number isPremiumUser).

Lemma ratelimit_enabled (now_read now_write : Z) (userId model : string) (r : Redis) :
  isRateLimiterEnabled env = true ->
  ratelimit env Number isPremiumUser now_read now_write userId model r
  = _ratelimit env Number now_read now_write model userId (isPremiumUser userId) r.
Proof. intros H. unfold ratelimit. now rewrite H. Qed.

(** A peek_here returns with the data of the store as they were. *)
Lemma peek_data (now : Z) (userId model : string) (r r' : Redis) (res : RateLimitResult) :
  peek_here now userId model r = Ok (res, r') -> data r' = data r.
Proof.
  unfold peek, checkRateLimitWithoutIncrementing.
  destruct (negb (isRateLimiterEnabled env)).
  - intros [= _ <-]. reflexivity.
  - destruct (_getLimit env Number model (isPremiumUser userId)) as [limit|e] eqn:Hl.
    + unfold bind. rewrite (getRemaining_run _ _ _ _ _ _ _ _ Hl). cbn zeta.
      destruct (strict_eq _ _); intros [= _ <-]; reflexivity.
    + unfold bind. rewrite (getRemaining_throw _ _ _ _ _ _ _ _ Hl). discriminate.
Qed.

Lemma peek_all_data (calls : list (Z * string * string)) :
  forall r r' : Redis, peek_all peek_here calls r = Ok (tt, r') -> data r' = data r.
Proof.
  induction calls as [|[[now userId] model] calls IH]; intros r r' H.
  - injection H as <-. reflexivity.
  - cbn [peek_all] in H. unfold bind in H.
    destruct (peek_here now userId model r) as [[res r1]|e] eqn:Hpeek; [|discriminate].
    apply peek_data in Hpeek. apply IH in H. congruence.
Qed.

(** The writes of [_addRequest] depend on the data of the store only. *)
Lemma _addRequest_data (now : Z) (key model : string) (r1 r2 : Redis) :
  data r1 = data r2 ->
  data_of (_addRequest env Number now key model r1)
  = data_of (_addRequest env Number now key model r2)
  /\ results_of (_addRequest env Number now key model r1)
     = results_of (_addRequest env Number now key model r2).
Proof.
  intros Hd. rewrite !_addRequest_run. cbn zeta. rewrite Hd.
  destruct (falsy _ || _)%bool.
  - unfold multi_exec, logged. cbn [data]. rewrite Hd.
    destruct (apply_all _ _); split; reflexivity.
  - unfold zadd, logged. cbn [data data_of results_of]. rewrite Hd. split; reflexivity.
Qed.

(** The answer and the writes of a check-and-increment call depend on
    the data of the store only. *)
Lemma ratelimit_data (now_read now_write : Z) (userId model : string) (r1 r2 : Redis) :
  data r1 = data r2 ->
  results_of (ratelimit env Number isPremiumUser now_read now_write userId model r1)
  = results_of (ratelimit env Number isPremiumUser now_read now_write userId model r2)
  /\ data_of (ratelimit env Number isPremiumUser now_read now_write userId model r1)
     = data_of (ratelimit env Number isPremiumUser now_read now_write userId model r2).
Proof.
  intros Hd. unfold ratelimit.
  destruct (negb (isRateLimiterEnabled env)).
  - cbn. now rewrite Hd.
  - destruct (_getLimit env Number model (isPremiumUser userId)) as [limit|e] eqn:Hl.
    + rewrite !(_ratelimit_run _ _ _ _ _ _ _ _ _ Hl). cbn zeta. rewrite Hd.
      destruct (strict_eq _ _).
      * cbn. now rewrite Hd.
      * destruct (_addRequest_data now_write (_makeStorageKey userId model) model
                    (after_reads (_makeStorageKey userId model) r1)
                    (after_reads (_makeStorageKey userId model) r2)) as [H1 H2].
        { unfold after_reads, logged. cbn [data]. exact Hd. }
        destruct (_addRequest _ _ _ _ _ (after_reads _ r1)) as [[[] r1']|e1],
                 (_addRequest _ _ _ _ _ (after_reads _ r2)) as [[[] r2']|e2];
          cbn in H1, H2 |- *; try discriminate; split; congruence.
    + rewrite !(_ratelimit_throw _ _ _ _ _ _ _ _ _ Hl). split; reflexivity.
Qed.

(** C4.  Any number of peeks, for any users and resource classes,
    leave the data of the store as they were, and the next
    check-and-increment call answers, and writes, as it would have
    without them. *)
Theorem peek_is_read_only (calls : list (Z * string * string)) (r r' : Redis) :
  peek_all peek_here calls r = Ok (tt, r') ->
  data r' = data r
  /\ forall (now_read now_write : Z) (userId model : string),
       results_of (ratelimit env Number isPremiumUser now_read now_write userId model r')
       = results_of (ratelimit env Number isPremiumUser now_read now_write userId model r)
       /\ data_of (ratelimit env Number isPremiumUser now_read now_write userId model r')
          = data_of (ratelimit env Number isPremiumUser now_read now_write userId model r).
Proof.
  intros H. apply peek_all_data in H. split; [exact H|].
  intros now_read now_write userId model. now apply ratelimit_data.
Qed.

(** A peek_here returns whenever the limit resolves. *)
Lemma peek_returns (now : Z) (userId model : string) (r : Redis) (limit : JSNumber) :
  _getLimit env Number model (isPremiumUser userId) = Ok limit ->
  exists res r', peek_here now userId model r = Ok (res, r').
Proof.
  intros Hl. unfold peek, checkRateLimitWithoutIncrementing.
  destruct (negb (isRateLimiterEnabled env)); [now eexists _, _|].
  unfold bind. rewrite (getRemaining_run _ _ _ _ _ _ _ _ Hl). cbn zeta.
  destruct (strict_eq _ _); now eexists _, _.
Qed.

(** C6, as the code has it.  Whenever [RATELIMITER_ENABLED] is unset,
    or set to anything but ["true"] in some letter case, both
    operations answer [Allowed{remaining: -1, timeRemaining: null}]
    whatever the store holds, and send nothing to the store: the
    bypass is what an unconfigured limiter does. *)
Theorem disabled_bypass (now_read now_write : Z) (userId model : string) (r : Redis) :
  (env !! "RATELIMITER_ENABLED" = None
   \/ exists v, env !! "RATELIMITER_ENABLED" = Some v /\ toLowerCase v <> "true") ->
  ratelimit env Number isPremiumUser now_read now_write userId model r = Ok (bypass, r)
  /\ peek_here now_read userId model r = Ok (bypass, r).
Proof.
  intros Hoff.
  assert (isRateLimiterEnabled env = false) as Hd.
  { unfold isRateLimiterEnabled. destruct Hoff as [-> | (v & -> & Hv)]; [reflexivity|].
    now apply String.eqb_neq. }
  unfold peek, ratelimit, checkRateLimitWithoutIncrementing. rewrite Hd.
  split; reflexivity.
Qed.

(** C8, as the code has it.  No input is rejected as invalid: for
    every user identifier and resource class, the empty identifier
    and unknown classes included, an enabled limiter whose limit and
    window resolve reads the store under the derived key and answers
    with an admission result. *)
Theorem no_input_validation (now_read now_write : Z) (userId model : string)
        (r : Redis) (limit : JSNumber) (w : Q) :
  isRateLimiterEnabled env = true ->
  _getLimit env Number model (isPremiumUser userId) = Ok limit ->
  getTimeWindow env Number model = Num w ->
  (exists res r',
      ratelimit env Number isPremiumUser now_read now_write userId model r = Ok (res, r')
      /\ In (Single (ZRANGE (_makeStorageKey userId model))) (log r'))
  /\ (exists res r',
        peek_here now_read userId model r = Ok (res, r')
        /\ In (Single (ZRANGE (_makeStorageKey userId model))) (log r')).
Proof.
  intros Hon Hl Hw. split.
  - rewrite (ratelimit_enabled _ _ _ _ _ Hon), (_ratelimit_run _ _ _ _ _ _ _ _ _ Hl).
    cbn zeta. destruct (strict_eq _ _).
    + eexists _, _. split; [reflexivity|]. cbn. tauto.
    + rewrite _addRequest_run, Hw. cbn zeta.
      destruct (falsy _ || _)%bool.
      * unfold multi_exec. rewrite apply_new_window.
        eexists _, _. split; [reflexivity|]. cbn. tauto.
      * unfold zadd. eexists _, _. split; [reflexivity|]. cbn. tauto.
  - unfold peek, checkRateLimitWithoutIncrementing. rewrite Hon. cbn [negb].
    unfold bind. rewrite (getRemaining_run _ _ _ _ _ _ _ _ Hl). cbn zeta.
    destruct (strict_eq _ _); eexists _, _; (split; [reflexivity|]); cbn; tauto.
Qed.

End PublicOperations.

(** ** Recorded instants are never zero *)

Section Timestamps.

Variable env : gmap string string.
Variable Number : string -> JSNumber.
Variable isPremiumUser : string -> bool.

Lemma empty_nonzero : timestamps_nonzero Store.empty.
Proof. intros key. unfold members_of. cbn. rewrite lookup_empty. tauto. Qed.

Lemma insert_member_inv (t x : Z) (l : list Z) :
  In x (insert_member t l) -> x = t \/ In x l.
Proof.
  induction l as [|y l IH]; simpl.
  - intros [->|[]]. now left.
  - destruct (Z.ltb_spec t y).
    + intros [->|H']; [now left | now right].
    + destruct (Z.eqb_spec t y); [now right|].
      intros [->|H']; [right; now left|].
      apply IH in H' as [->|H']; [now left | right; now right].
Qed.

Lemma members_of_zadd_ne (key key' : string) (t : Z) (d : gmap string SortedSet) :
  key <> key' -> members_of (zadd_data key t d) key' = members_of d key'.
Proof.
  intros Hne. unfold zadd_data.
  destruct (d !! key); now apply members_of_insert_ne.
Qed.

Lemma _addRequest_nonzero (now : Z) (key model : string) (r r' : Redis) :
  now <> 0 ->
  timestamps_nonzero r ->
  _addRequest env Number now key model r = Ok (tt, r') ->
  timestamps_nonzero r'.
Proof.
  intros Hnow Hinv. rewrite _addRequest_run. cbn zeta.
  destruct (falsy _ || _)%bool.
  - unfold multi_exec. destruct (getTimeWindow env Number model) as [|w].
    + cbn. discriminate.
    + rewrite apply_new_window. intros [= <-] key'. cbn [data].
      destruct (decide (key = key')) as [<-|Hne].
      * rewrite members_of_insert. cbn. intros [H|[]]. now apply Hnow.
      * rewrite (members_of_insert_ne _ _ _ _ Hne). apply Hinv.
  - unfold zadd. intros [= <-] key'. cbn [data logged].
    destruct (decide (key = key')) as [<-|Hne].
    + rewrite members_of_zadd. intros [H|H]%insert_member_inv.
      * now apply Hnow.
      * now apply (Hinv key).
    + rewrite (members_of_zadd_ne _ _ _ _ Hne). apply Hinv.
Qed.

(** A check-and-increment call whose write instant is not [0] keeps
    the records free of the instant [0]. *)
Lemma ratelimit_nonzero (now_read now_write : Z) (userId model : string)
      (r r' : Redis) (res : RateLimitResult) :
  now_write <> 0 ->
  timestamps_nonzero r ->
  ratelimit env Number isPremiumUser now_read now_write userId model r = Ok (res, r') ->
  timestamps_nonzero r'.
Proof.
  intros Hnow Hinv. unfold ratelimit.
  destruct (negb (isRateLimiterEnabled env)).
  - now intros [= _ <-].
  - destruct (_getLimit env Number model (isPremiumUser userId)) as [limit|e] eqn:Hl.
    + rewrite (_ratelimit_run _ _ _ _ _ _ _ _ _ Hl). cbn zeta.
      destruct (strict_eq _ _).
      * now intros [= _ <-].
      * destruct (_addRequest _ _ _ _ _ _) as [[[] r1]|e] eqn:Hadd; [|discriminate].
        intros [= _ <-]. apply _addRequest_nonzero in Hadd; [exact Hadd | exact Hnow |].
        exact Hinv.
    + now rewrite (_ratelimit_throw _ _ _ _ _ _ _ _ _ Hl).
Qed.

Lemma peek_nonzero (now : Z) (userId model : string) (r r' : Redis) (res : RateLimitResult) :
  timestamps_nonzero r ->
  peek env Number isPremiumUser now userId model r = Ok (res, r') ->
  timestamps_nonzero r'.
Proof.
  intros Hinv Hpeek key. apply peek_data in Hpeek. rewrite Hpeek. apply Hinv.
Qed.

Lemma timestamps_nonzero_head (r : Redis) (key : string) (earliest : Z) :
  timestamps_nonzero r ->
  head (members_of (data r) key) = Some earliest -> earliest <> 0.
Proof.
  intros Hinv Hhead ->. apply (Hinv key).
  destruct (members_of (data r) key); [discriminate|].
  injection Hhead as ->. now left.
Qed.

End Timestamps.

(** ** Reset times of denied calls *)

Section ResetTime.

Variable env : gmap string string.
Variable Number : string -> JSNumber.
Variable isPremiumUser : string -> bool.

Lemma budget_exhausted (l w : Q) (now : Z) (ms : list Z) :
  (0 < l)%Q ->
  strict_eq (fst (budget (Num w) (Num l) now ms)) (of_Z 0) = true ->
  exists d : Q, snd (budget (Num w) (Num l) now ms) = Some (Num d) /\ (0 < d)%Q.
Proof.
  intros Hl. unfold budget.
  assert (strict_eq (Num l) (of_Z 0) = false) as Hne.
  { unfold strict_eq, of_Z. apply not_true_iff_false. rewrite Qeq_bool_iff.
    change (inject_Z 0) with 0%Q. lra. }
  destruct (head ms) as [first|]; [|cbn [falsy fst]; intros H; congruence].
  destruct (falsy (Some first)); [cbn [fst]; intros H; congruence|].
  cbn [Number_of].
  - destruct (ge (of_Z now) (add (of_Z first) (Num w))) eqn:E;
      [cbn [fst]; intros H; congruence|].
    cbn [fst snd]. intros ->. eexists. split; [reflexivity|].
    apply window_end_ahead in E. cbn [of_Z add sub]. rewrite !Qred_correct. lra.
Qed.

(** With a limit above [0] and a numeric window, every answer of
    [_ratelimit] is well formed. *)
Lemma _ratelimit_well_formed (now_read now_write : Z) (model userId : string)
      (isPremium : bool) (r r' : Redis) (res : RateLimitResult) (l w : Q) :
  _getLimit env Number model isPremium = Ok (Num l) ->
  (0 < l)%Q ->
  getTimeWindow env Number model = Num w ->
  _ratelimit env Number now_read now_write model userId isPremium r = Ok (res, r') ->
  well_formed res.
Proof.
  intros Hl Hpos Hw. rewrite (_ratelimit_run _ _ _ _ _ _ _ _ _ Hl), Hw. cbn zeta.
  destruct (strict_eq _ _) eqn:E.
  - intros [= <- _]. apply (budget_exhausted _ _ _ _ Hpos E).
  - destruct (_addRequest _ _ _ _ _ _) as [[[] r1]|e]; [|discriminate].
    intros [= <- _]. reflexivity.
Qed.

Lemma peek_well_formed (now : Z) (userId model : string)
      (r r' : Redis) (res : RateLimitResult) (l w : Q) :
  isRateLimiterEnabled env = true ->
  _getLimit env Number model (isPremiumUser userId) = Ok (Num l) ->
  (0 < l)%Q ->
  getTimeWindow env Number model = Num w ->
  peek env Number isPremiumUser now userId model r = Ok (res, r') ->
  well_formed res.
Proof.
  intros Hon Hl Hpos Hw. unfold peek, checkRateLimitWithoutIncrementing.
  rewrite Hon. cbn [negb]. unfold bind.
  rewrite (getRemaining_run _ _ _ _ _ _ _ _ Hl), Hw. cbn zeta.
  destruct (strict_eq _ _) eqn:E.
  - intros [= <- _]. apply (budget_exhausted _ _ _ _ Hpos E).
  - intros [= <- _]. reflexivity.
Qed.

End ResetTime.

(** ** The properties on concrete runs *)

Section Runs.

(** Free user ["u"] on the gpt-4 family: two requests per second. *)
Let key := "ratelimit:u:GPT_4".

Ltac evaluate := vm_compute; first [reflexivity | discriminate | tauto].


Lemma addRequest_cases_witness :
  data_of (_addRequest env_example Number_example 1500 key "gpt-4" (store_with key [1; 101]))
  = Some {[ key := mkSortedSet [1500] (Some (inject_Z 1)) ]}
  /\ data_of (_addRequest env_example Number_example 201 key "gpt-4" (store_with key [1; 101]))
     = Some {[ key := mkSortedSet [1; 101; 201] None ]}.
Proof.
  destruct (addRequest_cases env_example Number_example 1500 key "gpt-4"
              (store_with key [1; 101]) 1000) as [Hreset _]; [evaluate|].
  destruct (addRequest_cases env_example Number_example 201 key "gpt-4"
              (store_with key [1; 101]) 1000) as [_ Happend]; [evaluate|].
  destruct Hreset as (r1 & Hrun1 & Hdata1 & _).
  { right. exists 1. split; evaluate. }
  destruct (Happend (mkSortedSet [1; 101] None) 1) as (r2 & Hrun2 & Hdata2 & _);
    [evaluate | evaluate | lia | evaluate |].
  rewrite Hrun1, Hrun2. cbn [data_of]. rewrite Hdata1, Hdata2. split; evaluate.
Defined.

Lemma monotonic_consumption_witness :
  exists results,
    results_of (admit_all (admit_call env_example Number_example "gpt-4" "u" false)
                          (at_instants [1; 101; 201; 301]) Store.empty)
    = Some results
    /\ map allowed results = [true; true; false; false]
    /\ map remaining results = [of_Z 1; of_Z 0; of_Z 0; of_Z 0].
Proof.
  destruct (monotonic_consumption env_example Number_example "gpt-4" "u" false 2 1000)
    with (r := Store.empty) (now_read := 1) (opening := 1)
         (later := at_instants [101; 201; 301])
    as (results & r' & Hrun & _); [evaluate | evaluate | evaluate | lia | | |].
  - repeat constructor.
  - repeat constructor.
  - exists results. change (at_instants [1; 101; 201; 301])
      with ((1, 1) :: at_instants [101; 201; 301]).
    rewrite Hrun. cbn [results_of]. split; [reflexivity|].
    vm_compute in Hrun. injection Hrun as <- _. split; reflexivity.
Defined.

(** Three requests per second and four calls in the same millisecond,
    all inside one window: the member [5] is recorded once, so the
    third admitted call leaves a budget of 1 and the fourth call is
    admitted as well. *)
Lemma same_millisecond_calls :
  results_of (admit_all (fun now_read now_write =>
                           ratelimit env_three Number_example free_user
                                     now_read now_write "u" "gpt-4")
                        (at_instants [5; 5; 5; 5]) Store.empty)
  = Some [mkResult true (of_Z 2) None; mkResult true (of_Z 1) None;
          mkResult true (of_Z 1) None; mkResult true (of_Z 1) None].
Proof. evaluate. Qed.

Lemma window_reset_witness :
  results_of
    (admit_all (admit_call env_example Number_example "gpt-4" "u" false)
               (at_instants [1; 101; 201; 1002]) Store.empty)
  = Some [mkResult true (of_Z 1) None;
          mkResult true (of_Z 0) None;
          mkResult false (of_Z 0) (Some (of_Z 800));
          mkResult true (of_Z 1) None].
Proof.
  apply (window_reset env_example Number_example "gpt-4" "u" false) with (t := 1).
  - evaluate.
  - evaluate.
  - evaluate.
  - lia.
Defined.

(** The scenario started at the instant [0]: the record member [0]
    reads as an absent record, so the second call opens a window of
    its own and the fourth call falls inside it. *)
Lemma window_reset_at_zero :
  results_of
    (admit_all (admit_call env_example Number_example "gpt-4" "u" false)
               (at_instants [0; 100; 200; 1001]) Store.empty)
  = Some [mkResult true (of_Z 1) None;
          mkResult true (of_Z 1) None;
          mkResult true (of_Z 0) None;
          mkResult false (of_Z 0) (Some (of_Z 99))]
  /\ results_of
       (admit_all (admit_call env_example Number_example "gpt-4" "u" false)
                  (at_instants [0; 100; 200; 1001]) Store.empty)
     <> Some [mkResult true (of_Z 1) None;
              mkResult true (of_Z 0) None;
              mkResult false (of_Z 0) (Some (of_Z 800));
              mkResult true (of_Z 1) None].
Proof. split; evaluate. Qed.

Lemma peek_is_read_only_witness :
  exists r',
    peek_all (peek env_example Number_example free_user)
             [(150, "u", "gpt-4"); (160, "v", "plugins"); (170, "u", "gpt-4")]
             (store_with key [1; 101])
    = Ok (tt, r')
    /\ data r' = data (store_with key [1; 101])
    /\ results_of (ratelimit env_example Number_example free_user 201 201 "u" "gpt-4" r')
       = Some (mkResult false (of_Z 0) (Some (of_Z 800))).
Proof.
  exists (after_reads key
            (after_reads "ratelimit:v:PLUGINS"
               (after_reads key (store_with key [1; 101])))).
  assert (peek_all (peek env_example Number_example free_user)
                   [(150, "u", "gpt-4"); (160, "v", "plugins"); (170, "u", "gpt-4")]
                   (store_with key [1; 101])
          = Ok (tt, after_reads key
                      (after_reads "ratelimit:v:PLUGINS"
                         (after_reads key (store_with key [1; 101]))))) as Hpeeks
    by evaluate.
  split; [exact Hpeeks|].
  destruct (peek_is_read_only env_example Number_example free_user _ _ _ Hpeeks)
    as [Hdata Hnext].
  split; [exact Hdata|].
  destruct (Hnext 201 201 "u" "gpt-4") as [-> _]. evaluate.
Defined.

Lemma disabled_bypass_witness :
  ratelimit ∅ Number_example free_user 201 201 "u" "gpt-4" (store_with key [1; 101])
  = Ok (bypass, store_with key [1; 101])
  /\ peek ∅ Number_example free_user 201 "u" "gpt-4" (store_with key [1; 101])
     = Ok (bypass, store_with key [1; 101]).
Proof.
  apply (disabled_bypass ∅ Number_example free_user 201 201 "u" "gpt-4").
  left. reflexivity.
Defined.

(** With nothing configured the limiter is switched off: a user who
    has used up the window is still answered with the bypass. *)
Lemma bypass_is_default :
  isRateLimiterEnabled ∅ = false
  /\ ratelimit ∅ Number_example free_user 201 201 "u" "gpt-4" (store_with key [1; 101])
     = Ok (mkResult true (of_Z (-1)) None, store_with key [1; 101])
  /\ ratelimit env_example Number_example free_user 201 201 "u" "gpt-4"
               (store_with key [1; 101])
     = Ok (mkResult false (of_Z 0) (Some (of_Z 800)),
           after_reads key (store_with key [1; 101])).
Proof. repeat split; evaluate. Qed.

Lemma no_input_validation_witness :
  (exists res r',
      ratelimit env_example Number_example free_user 5 5 "" "no-such-model" Store.empty
      = Ok (res, r')
      /\ In (Single (ZRANGE "ratelimit::NO_SUCH_MODEL")) (log r'))
  /\ (exists res r',
        peek env_example Number_example free_user 5 "" "no-such-model" Store.empty
        = Ok (res, r')
        /\ In (Single (ZRANGE "ratelimit::NO_SUCH_MODEL")) (log r')).
Proof.
  apply (no_input_validation env_example Number_example free_user 5 5 "" "no-such-model"
           Store.empty (of_Z 15) 1000).
  - evaluate.
  - evaluate.
  - evaluate.
Defined.

(** An empty user identifier and an unknown resource class: the call
    is admitted with the default limit and recorded in the store. *)
Lemma empty_user_is_admitted :
  exists r',
    ratelimit env_example Number_example free_user 5 5 "" "no-such-model" Store.empty
    = Ok (mkResult true (of_Z 14) None, r')
    /\ members_of (data r') "ratelimit::NO_SUCH_MODEL" = [5]
    /\ log r' <> []
    /\ peek env_example Number_example free_user 5 "" "no-such-model" Store.empty
       = Ok (mkResult true (of_Z 15) None, after_reads "ratelimit::NO_SUCH_MODEL" Store.empty).
Proof. eexists. split; [evaluate|]. repeat split; evaluate. Qed.

(** C7 at a blank setting.  The limit of the free tier is configured
    as the empty string, or as a space, which is not a number:
    [Number] reads it as [0], the test of [_getLimit] lets it through
    and the limit is [0] without any error, so that every call of a
    free user is denied.  The premium tier has its own setting. *)
Theorem blank_limit_is_zero :
  _getLimit env_blank Number_example "gpt-4" false = Ok (of_Z 0)
  /\ _getLimit env_space Number_example "gpt-4" false = Ok (of_Z 0)
  /\ _getLimit env_blank Number_example "gpt-4" true = Ok (of_Z 3)
  /\ ratelimit env_blank Number_example free_user 5 5 "u" "gpt-4" Store.empty
     = Ok (mkResult false (of_Z 0) None, after_reads key Store.empty).
Proof. repeat split; evaluate. Qed.

(** Two and a half requests per window: the third call is admitted
    with a budget below zero left, and the fourth is denied. *)
Example fractional_limit_calls :
  results_of (admit_all (fun now_read now_write =>
                           ratelimit env_fraction Number_example free_user
                                     now_read now_write "u" "gpt-4")
                        (at_instants [1; 101; 201; 301]) Store.empty)
  = Some [mkResult true (Num (3 # 2)) None; mkResult true (Num (1 # 2)) None;
          mkResult true (Num (-1 # 2)) None;
          mkResult false (of_Z 0) (Some (of_Z 700))].
Proof. evaluate. Qed.

(** C10 at a limit of [0]: on a record with no member both operations
    deny the call with [timeRemaining = null], although a denied
    result is declared to carry a number. *)
Theorem denied_without_reset_time :
  _getLimit env_closed Number_example "gpt-4" false = Ok (of_Z 0)
  /\ ratelimit env_closed Number_example free_user 5 5 "u" "gpt-4" Store.empty
     = Ok (mkResult false (of_Z 0) None, after_reads key Store.empty)
  /\ peek env_closed Number_example free_user 5 "u" "gpt-4" Store.empty
     = Ok (mkResult false (of_Z 0) None, after_reads key Store.empty)
  /\ ~ well_formed (mkResult false (of_Z 0) None).
Proof.
  repeat split; try evaluate.
  intros (d & Hd & _). discriminate.
Qed.

End Runs.

(** * Further properties of the limiter *)

(** ** Storage keys *)

Section StorageKeys.

Lemma no_colon_split (u u2 a b : string) :
  no_colon u = true -> no_colon u2 = true ->
  u ++ ":" ++ a = u2 ++ ":" ++ b -> u = u2 /\ a = b.
Proof.
  revert u2. induction u as [|c u IH]; intros [|c2 u2] Hu Hu2 H; cbn in H.
  - injection H as H. now split.
  - injection H as Hc _. subst c2. cbn in Hu2. discriminate.
  - injection H as Hc _. subst c. cbn in Hu. discriminate.
  - injection H as -> H. cbn in Hu, Hu2.
    apply andb_true_iff in Hu as [_ Hu]. apply andb_true_iff in Hu2 as [_ Hu2].
    destruct (IH u2 Hu Hu2 H) as [-> ->]. now split.
Qed.

Lemma storage_key_eq_inv (u u2 m m2 : string) :
  no_colon u = true -> no_colon u2 = true ->
  _makeStorageKey u m = _makeStorageKey u2 m2 ->
  u = u2 /\ _getFixedModelName m = _getFixedModelName m2.
Proof.
  intros Hu Hu2 H. unfold _makeStorageKey in H.
  apply (inj (String.app "ratelimit:")) in H. now apply no_colon_split.
Qed.

(** X1.  For user identifiers without a colon, two storage keys are
    equal exactly when the users are equal and the resource classes
    have the same canonical name. *)
Theorem storage_key_collision_free (u u2 m m2 : string) :
  no_colon u = true -> no_colon u2 = true ->
  (_makeStorageKey u m = _makeStorageKey u2 m2
   <-> u = u2 /\ _getFixedModelName m = _getFixedModelName m2).
Proof.
  intros Hu Hu2. split.
  - now apply storage_key_eq_inv.
  - unfold _makeStorageKey. now intros [-> ->].
Qed.

Lemma storage_key_collision_free_witness :
  _makeStorageKey "alice" "gpt-4o" = _makeStorageKey "alice" "gpt-4-turbo"
  /\ _makeStorageKey "alice" "gpt-4" <> _makeStorageKey "bob" "hackergpt".
Proof.
  split.
  - apply (storage_key_collision_free "alice" "alice" "gpt-4o" "gpt-4-turbo");
      [reflexivity | reflexivity | split; reflexivity].
  - intros H.
    apply (storage_key_collision_free "alice" "bob" "gpt-4" "hackergpt") in H;
      [|reflexivity | reflexivity].
    destruct H as [H _]. discriminate.
Defined.

(** With a colon in a user identifier two users can share a key. *)
Example storage_key_collision :
  _makeStorageKey "a" "b:c" = _makeStorageKey "a:B" "c".
Proof. reflexivity. Qed.

End StorageKeys.

(** ** What a call sends to the store *)

Section Traffic.

Variable env : gmap string string.
Variable Number : string -> JSNumber.
Variable isPremiumUser : string -> bool.

(** What [_addRequest] leaves in the store when it returns. *)
Lemma _addRequest_effect (now : Z) (key model : string) (r r' : Redis) :
  _addRequest env Number now key model r = Ok (tt, r') ->
  exists q,
    log r' = q :: Single (ZRANGE key) :: log r
    /\ is_write_of key now q
    /\ exists record, data r' = <[key := record]> (data r).
Proof.
  rewrite _addRequest_run. cbn zeta.
  destruct (falsy _ || _)%bool.
  - unfold multi_exec. destruct (getTimeWindow env Number model) as [|w].
    + cbn. discriminate.
    + rewrite apply_new_window. intros [= <-]. cbn [log data logged].
      eexists. split; [reflexivity|]. split.
      * right. eexists. reflexivity.
      * eexists. reflexivity.
  - unfold zadd. intros [= <-]. cbn [log data logged].
    eexists. split; [reflexivity|]. split; [now left|].
    unfold zadd_data. destruct (data r !! key); eexists; reflexivity.
Qed.

(** X2.  A denied call of an enabled limiter sends the two reads of
    [getRemaining] and nothing else; an admitted call sends those two
    reads, one more read, and exactly one write for the key of the
    caller: one [zadd], or one transaction that starts a new window. *)
Theorem ratelimit_traffic (now_read now_write : Z) (userId model : string)
        (r r' : Redis) (res : RateLimitResult) :
  isRateLimiterEnabled env = true ->
  ratelimit env Number isPremiumUser now_read now_write userId model r = Ok (res, r') ->
  let key := _makeStorageKey userId model in
  if allowed res then
    exists q,
      log r' = q :: Single (ZRANGE key) :: Single (ZCARD key) :: Single (ZRANGE key) :: log r
      /\ is_write_of key now_write q
  else
    r' = after_reads key r.
Proof.
  intros Hon. rewrite (ratelimit_enabled _ _ _ _ _ _ _ _ Hon).
  destruct (_getLimit env Number model (isPremiumUser userId)) as [limit|e] eqn:Hl.
  - rewrite (_ratelimit_run _ _ _ _ _ _ _ _ _ Hl). cbn zeta.
    destruct (strict_eq _ _).
    + intros [= <- <-]. reflexivity.
    + destruct (_addRequest _ _ _ _ _ _) as [[[] r1]|e] eqn:Hadd; [|discriminate].
      intros [= <- <-]. cbn [allowed].
      apply _addRequest_effect in Hadd as (q & Hlog & Hq & _).
      exists q. split; [exact Hlog | exact Hq].
  - now rewrite (_ratelimit_throw _ _ _ _ _ _ _ _ _ Hl).
Qed.

(** A check-and-increment call changes no record but the one of its key. *)
Lemma ratelimit_other_keys (now_read now_write : Z) (userId model : string)
      (r r' : Redis) (res : RateLimitResult) :
  ratelimit env Number isPremiumUser now_read now_write userId model r = Ok (res, r') ->
  forall key, key <> _makeStorageKey userId model -> data r' !! key = data r !! key.
Proof.
  unfold ratelimit.
  destruct (negb (isRateLimiterEnabled env)); [now intros [= _ <-]|].
  destruct (_getLimit env Number model (isPremiumUser userId)) as [limit|e] eqn:Hl.
  - rewrite (_ratelimit_run _ _ _ _ _ _ _ _ _ Hl). cbn zeta.
    destruct (strict_eq _ _); [now intros [= _ <-]|].
    destruct (_addRequest _ _ _ _ _ _) as [[[] r1]|e] eqn:Hadd; [|discriminate].
    intros [= _ <-] key Hkey.
    apply _addRequest_effect in Hadd as (_ & _ & _ & record & ->).
    rewrite lookup_insert_ne; [reflexivity | congruence].
  - now rewrite (_ratelimit_throw _ _ _ _ _ _ _ _ _ Hl).
Qed.

(** X3.  A check-and-increment call changes no record but the one of
    its own key; in particular, for user identifiers without a colon,
    it leaves every record of every other user as it was. *)
Theorem ratelimit_frame (now_read now_write : Z) (userId model : string)
        (r r' : Redis) (res : RateLimitResult) :
  ratelimit env Number isPremiumUser now_read now_write userId model r = Ok (res, r') ->
  (forall key, key <> _makeStorageKey userId model -> data r' !! key = data r !! key)
  /\ (forall other model2,
        no_colon userId = true -> no_colon other = true -> other <> userId ->
        data r' !! _makeStorageKey other model2 = data r !! _makeStorageKey other model2).
Proof.
  intros Hrun. pose proof (ratelimit_other_keys _ _ _ _ _ _ _ Hrun) as Hframe.
  split; [exact Hframe|].
  intros other model2 Hu Ho Hne. apply Hframe. intros Heq.
  apply storage_key_eq_inv in Heq; [|assumption|assumption].
  now destruct Heq.
Qed.

End Traffic.

(** ** The limit is never exceeded *)

Section Budget.

Variable env : gmap string string.
Variable Number : string -> JSNumber.
Variables (model userId : string) (isPremium : bool) (L W : Z).
Hypothesis limit_is : _getLimit env Number model isPremium = Ok (of_Z L).
Hypothesis window_is : getTimeWindow env Number model = of_Z W.

Local Abbreviation key := (_makeStorageKey userId model).
Local Abbreviation admit_here := (admit_call env Number model userId isPremium).

Lemma insert_member_length_le (t : Z) (l : list Z) :
  (length (insert_member t l) <= S (length l))%nat.
Proof.
  induction l as [|x l IH]; simpl; [lia|].
  destruct (t <? x); [simpl; lia|].
  destruct (t =? x); simpl; lia.
Qed.

(** Where the write of an admitted call leaves the record: one event
    in a new window, or one more event at most in the old one. *)
Lemma _addRequest_cardinality (now : Z) (r r' : Redis) :
  _addRequest env Number now key model r = Ok (tt, r') ->
  cardinality r' key = 1
  \/ (cardinality r' key <= cardinality r key + 1
      /\ (falsy (head (members_of (data r) key))
          || ge (sub (of_Z now) (Number_of (head (members_of (data r) key)))) (of_Z W))%bool
         = false).
Proof.
  rewrite _addRequest_run, window_is. cbn zeta.
  destruct (falsy _ || _)%bool.
  - unfold multi_exec. change (of_Z W) with (Num (inject_Z W)).
    rewrite apply_new_window. intros [= <-]. left.
    unfold cardinality. cbn [data]. now rewrite members_of_insert.
  - unfold zadd. intros [= <-]. right. split; [|reflexivity].
    unfold cardinality. cbn [data logged]. rewrite members_of_zadd.
    pose proof (insert_member_length_le now (members_of (data r) key)). lia.
Qed.

(** One call keeps the record within the limit. *)
Lemma _ratelimit_cardinality (now_read now_write : Z) (r r' : Redis) (res : RateLimitResult) :
  now_read <= now_write ->
  cardinality r key <= L ->
  _ratelimit env Number now_read now_write model userId isPremium r = Ok (res, r') ->
  cardinality r' key <= L.
Proof.
  intros Hclock Hcard. pose proof (limit_nonneg _ _ _ _ _ limit_is) as HL.
  rewrite (_ratelimit_run _ _ _ _ _ _ _ _ _ limit_is), window_is. cbn zeta.
  destruct (strict_eq _ _) eqn:Hzero.
  - intros [= _ <-]. exact Hcard.
  - destruct (_addRequest _ _ _ _ _ _) as [[[] r1]|e] eqn:Hadd; [|discriminate].
    intros [= _ <-].
    apply _addRequest_cardinality in Hadd as [Hone | [Hle Hopen]].
    + (* a new window: the call was admitted, so the limit is not 0 *)
      rewrite Hone. destruct (Z.eq_dec L 0) as [HL0|HL0]; [|lia].
      exfalso. subst L. revert Hzero. unfold budget.
      unfold cardinality in Hcard.
      destruct (members_of (data r) key) as [|first rest]; [discriminate|].
      cbn [length] in Hcard. lia.
    + (* one more event in the old window: the call was admitted inside it *)
      unfold after_reads, logged, cardinality in *. cbn [data] in *.
      apply orb_false_iff in Hopen as [Hfalsy Hopen].
      revert Hzero. unfold budget. rewrite Hfalsy.
      destruct (members_of (data r) key) as [|first rest] eqn:Hms; [discriminate|].
      cbn [head Number_of] in *.
      rewrite sub_of_Z, ge_of_Z in Hopen. apply Z.leb_gt in Hopen.
      rewrite add_of_Z, ge_of_Z.
      assert ((first + W <=? now_read) = false) as -> by (apply Z.leb_gt; lia).
      cbn [fst]. rewrite sub_of_Z, max_of_Z, strict_eq_of_Z.
      intros Hrem%Z.eqb_neq. lia.
Qed.

(** X4.  Take a whole limit [L] and a window of a whole number of
    milliseconds.  Whatever the instants of the calls (windows lapsing
    or not, several calls in one millisecond), as long as each call
    writes no earlier than it reads, a record that holds at most [L]
    events holds at most [L] events after any sequence of
    check-and-increment calls. *)
Theorem limit_never_exceeded (calls : list (Z * Z)) :
  clock_monotone calls ->
  forall (r r' : Redis) (results : list RateLimitResult),
    cardinality r key <= L ->
    admit_all admit_here calls r = Ok (results, r') ->
    cardinality r' key <= L.
Proof.
  induction 1 as [|[now_read now_write] calls Hclock _ IH]; intros r r' results Hcard.
  - intros [= _ <-]. exact Hcard.
  - cbn [admit_all]. unfold bind at 1.
    destruct (admit_here now_read now_write r) as [[res r1]|e] eqn:Hrun; [|discriminate].
    unfold bind at 1.
    destruct (admit_all admit_here calls r1) as [[more r2]|e] eqn:Hruns; [|discriminate].
    intros [= _ <-]. apply (IH r1 r2 more); [|exact Hruns].
    apply (_ratelimit_cardinality now_read now_write r r1 res Hclock Hcard Hrun).
Qed.

End Budget.

(** Without that order of the two clock reads the limit can be
    exceeded: the read sees a lapsed window, the write an open one. *)
Example limit_exceeded_clock_backwards :
  data_of (ratelimit env_example Number_example free_user 1500 500 "u" "gpt-4"
                     (store_with "ratelimit:u:GPT_4" [1; 101]))
  = Some {[ "ratelimit:u:GPT_4" := mkSortedSet [1; 101; 500] None ]}.
Proof. vm_compute. reflexivity. Qed.

(** ** Peek, reset and the HTTP adapter *)

Section Operations.

Variable env : gmap string string.
Variable Number : string -> JSNumber.
Variable isPremiumUser : string -> bool.
Variable epochTimeToNaturalLanguage : option JSNumber -> string.
Variable Object_prototype : string -> option string.

Local Abbreviation peek_here := (peek env Number isPremiumUser).
Local Abbreviation ratelimit_here := (ratelimit env Number isPremiumUser).
Local Abbreviation api_here :=
  (checkRatelimitOnApi env Number isPremiumUser epochTimeToNaturalLanguage Object_prototype).

(** X5.  A peek followed by a check-and-increment call of the same
    user and resource class at the same read instant: the call is
    admitted exactly when the peek was allowed; if so it answers the
    peeked budget less one, and if not it answers as the peek did and
    writes nothing. *)
Theorem peek_predicts_admit (now now_write : Z) (userId model : string)
        (r rp ra : Redis) (p a : RateLimitResult) :
  isRateLimiterEnabled env = true ->
  peek_here now userId model r = Ok (p, rp) ->
  ratelimit_here now now_write userId model rp = Ok (a, ra) ->
  allowed a = allowed p
  /\ (allowed p = true -> remaining a = sub (remaining p) (of_Z 1))
  /\ (allowed p = false ->
      remaining p = of_Z 0
      /\ strict_eq (remaining a) (of_Z 0) = true
      /\ timeRemaining a = timeRemaining p
      /\ data ra = data r).
Proof.
  intros Hon. unfold peek, checkRateLimitWithoutIncrementing.
  rewrite (ratelimit_enabled _ _ _ _ _ _ _ _ Hon), Hon. cbn [negb].
  destruct (_getLimit env Number model (isPremiumUser userId)) as [limit|e] eqn:Hl.
  - unfold bind. rewrite (getRemaining_run _ _ _ _ _ _ _ _ Hl). cbn zeta.
    set (b := budget _ _ _ _).
    destruct (strict_eq (fst b) (of_Z 0)) eqn:Hzero.
    + intros [= <- <-]. rewrite (_ratelimit_run _ _ _ _ _ _ _ _ _ Hl). cbn zeta.
      unfold after_reads, logged. cbn [data]. fold b. rewrite Hzero.
      intros [= <- <-]. cbn. repeat split; try discriminate; assumption.
    + intros [= <- <-]. rewrite (_ratelimit_run _ _ _ _ _ _ _ _ _ Hl). cbn zeta.
      unfold after_reads, logged. cbn [data]. fold b. rewrite Hzero.
      destruct (_addRequest _ _ _ _ _ _) as [[[] r1]|e]; [|discriminate].
      intros [= <- <-]. cbn. repeat split; try discriminate; reflexivity.
  - unfold bind. rewrite (getRemaining_throw _ _ _ _ _ _ _ _ Hl). discriminate.
Qed.

(** X6.  [resetRateLimit] always returns; it touches no record but the
    one of its key, and afterwards the whole limit is available, at any
    instant, to every resource class with the same canonical name. *)
Theorem reset_restores_budget (model userId : string) (r : Redis) :
  exists r',
    resetRateLimit model userId r = Ok (tt, r')
    /\ (forall key, key <> _makeStorageKey userId model -> data r' !! key = data r !! key)
    /\ (forall (now : Z) (model2 : string) (isPremium : bool) (limit : JSNumber),
          _getFixedModelName model2 = _getFixedModelName model ->
          _getLimit env Number model2 isPremium = Ok limit ->
          results_of (getRemaining env Number now userId model2 isPremium r')
          = Some (limit, None)).
Proof.
  eexists. split; [reflexivity|]. cbn [data]. split.
  - intros key Hkey. unfold del_data. now rewrite lookup_delete_ne.
  - intros now model2 isPremium limit Hname Hl.
    rewrite (getRemaining_run _ _ _ _ _ _ _ _ Hl). cbn [results_of data].
    unfold _makeStorageKey, members_of, del_data. rewrite Hname, lookup_delete_eq.
    reflexivity.
Qed.

(** X7.  [checkRatelimitOnApi] returns [null] when the limiter is
    switched off or the call was admitted.  Otherwise it returns a
    response with status 429 whose body repeats the denied result, with
    a [remaining] of 0, and the records of the store are as they
    were. *)
Theorem api_adapter (now_read now_write : Z) (userId model : string)
        (r r' : Redis) (out : option (Response * RateLimitResult)) :
  api_here now_read now_write userId model r = Ok (out, r') ->
  match out with
  | None =>
      exists res,
        ratelimit_here now_read now_write userId model r = Ok (res, r')
        /\ allowed res = true
  | Some (response, res) =>
      ratelimit_here now_read now_write userId model r = Ok (res, r')
      /\ allowed res = false
      /\ status response = 429
      /\ body_remaining (response_body response) = remaining res
      /\ strict_eq (remaining res) (of_Z 0) = true
      /\ body_timeRemaining (response_body response) = timeRemaining res
      /\ data r' = data r
  end.
Proof.
  unfold checkRatelimitOnApi, bind.
  destruct (ratelimit_here now_read now_write userId model r) as [[res r1]|e] eqn:Hrun;
    [|discriminate].
  destruct (allowed res) eqn:Hall.
  - intros [= <- <-]. now exists res.
  - intros [= <- <-]. cbn. repeat split; try reflexivity; try assumption.
    + revert Hrun Hall. unfold ratelimit.
      destruct (negb (isRateLimiterEnabled env)); [intros [= <- _]; discriminate|].
      destruct (_getLimit env Number model (isPremiumUser userId)) as [limit|e] eqn:Hl.
      * rewrite (_ratelimit_run _ _ _ _ _ _ _ _ _ Hl). cbn zeta.
        destruct (strict_eq _ _) eqn:Hzero.
        -- now intros [= <- _].
        -- destruct (_addRequest _ _ _ _ _ _) as [[[] r2]|e]; [|discriminate].
           intros [= <- _]. discriminate.
      * now rewrite (_ratelimit_throw _ _ _ _ _ _ _ _ _ Hl).
    + revert Hrun Hall. unfold ratelimit.
      destruct (negb (isRateLimiterEnabled env)); [intros [= <- _]; discriminate|].
      destruct (_getLimit env Number model (isPremiumUser userId)) as [limit|e] eqn:Hl.
      * rewrite (_ratelimit_run _ _ _ _ _ _ _ _ _ Hl). cbn zeta.
        destruct (strict_eq _ _).
        -- now intros [= _ <-].
        -- destruct (_addRequest _ _ _ _ _ _) as [[[] r2]|e]; [|discriminate].
           intros [= <- _]. discriminate.
      * now rewrite (_ratelimit_throw _ _ _ _ _ _ _ _ _ Hl).
Qed.

(** X8.  With a limit above 0 and a numeric window, every answer of
    the two public operations of an enabled limiter is well formed:
    [timeRemaining] is [null] when the call is allowed and a positive
    number when it is denied. *)
Theorem answers_well_formed (now_read now_write : Z) (userId model : string)
        (r : Redis) (l w : Q) :
  isRateLimiterEnabled env = true ->
  _getLimit env Number model (isPremiumUser userId) = Ok (Num l) ->
  (0 < l)%Q ->
  getTimeWindow env Number model = Num w ->
  (forall res r', ratelimit_here now_read now_write userId model r = Ok (res, r') ->
                  well_formed res)
  /\ (forall res r', peek_here now_read userId model r = Ok (res, r') ->
                     well_formed res).
Proof.
  intros Hon Hl Hpos Hw. split; intros res r' Hrun.
  - rewrite (ratelimit_enabled _ _ _ _ _ _ _ _ Hon) in Hrun.
    exact (_ratelimit_well_formed _ _ _ _ _ _ _ _ _ _ _ _ Hl Hpos Hw Hrun).
  - exact (peek_well_formed _ _ _ _ _ _ _ _ _ _ _ Hon Hl Hpos Hw Hrun).
Qed.

End Operations.

(** ** The plugins route *)

Section PluginsRouteProperties.

Import PluginsRoute.

Variable env : gmap string string.
Variable Number : string -> JSNumber.
Variable isPremiumUser : string -> bool.
Variable epochTimeToNaturalLanguage : option JSNumber -> string.
Variable Object_prototype : string -> option string.

Local Abbreviation ratelimit_here := (ratelimit env Number isPremiumUser).
Local Abbreviation api_here :=
  (checkRatelimitOnApi env Number isPremiumUser epochTimeToNaturalLanguage Object_prototype).
Local Abbreviation POST_here :=
  (POST_admission env Number isPremiumUser epochTimeToNaturalLanguage Object_prototype).

(** An admitted call of an enabled limiter leaves its write instant in
    the record of its key. *)
Lemma admitted_is_recorded (now_read now_write : Z) (userId model : string)
      (r r' : Redis) (res : RateLimitResult) :
  isRateLimiterEnabled env = true ->
  ratelimit_here now_read now_write userId model r = Ok (res, r') ->
  allowed res = true ->
  In now_write (members_of (data r') (_makeStorageKey userId model)).
Proof.
  intros Hon. rewrite (ratelimit_enabled _ _ _ _ _ _ _ _ Hon).
  destruct (_getLimit env Number model (isPremiumUser userId)) as [limit|e] eqn:Hl.
  - rewrite (_ratelimit_run _ _ _ _ _ _ _ _ _ Hl). cbn zeta.
    destruct (strict_eq _ _); [intros [= <- _]; discriminate|].
    rewrite _addRequest_run. cbn zeta.
    destruct (falsy _ || _)%bool.
    + unfold multi_exec. destruct (getTimeWindow env Number model) as [|w]; [cbn; discriminate|].
      rewrite apply_new_window. intros [= _ <-] _. cbn [data].
      rewrite members_of_insert. now left.
    + unfold zadd. intros [= _ <-] _. cbn [data logged].
      rewrite members_of_zadd. apply insert_member_In.
  - now rewrite (_ratelimit_throw _ _ _ _ _ _ _ _ _ Hl).
Qed.

(** A denied call leaves the records as they were. *)
Lemma denied_writes_nothing (now_read now_write : Z) (userId model : string)
      (r r' : Redis) (res : RateLimitResult) :
  ratelimit_here now_read now_write userId model r = Ok (res, r') ->
  allowed res = false ->
  data r' = data r.
Proof.
  unfold ratelimit. destruct (negb (isRateLimiterEnabled env)); [intros [= <- _]; discriminate|].
  destruct (_getLimit env Number model (isPremiumUser userId)) as [limit|e] eqn:Hl.
  - rewrite (_ratelimit_run _ _ _ _ _ _ _ _ _ Hl). cbn zeta.
    destruct (strict_eq _ _); [now intros [= _ <-]|].
    destruct (_addRequest _ _ _ _ _ _) as [[[] r1]|e]; [|discriminate].
    intros [= <- _]. discriminate.
  - now rewrite (_ratelimit_throw _ _ _ _ _ _ _ _ _ Hl).
Qed.

Lemma api_of_ratelimit (now_read now_write : Z) (userId model : string)
      (r r' : Redis) (res : RateLimitResult) :
  ratelimit_here now_read now_write userId model r = Ok (res, r') ->
  api_here now_read now_write userId model r
  = Ok (if allowed res then None
        else Some (mkResponse
                     (mkBody (getRateLimitErrorMessage epochTimeToNaturalLanguage
                                Object_prototype (timeRemaining res)
                                (isPremiumUser userId) model)
                             (remaining res) (timeRemaining res)) 429, res),
        r').
Proof.
  intros H. unfold checkRatelimitOnApi, bind. rewrite H.
  destruct (allowed res); reflexivity.
Qed.

(** X9.  The handler answers "Access Denied" exactly when the user is
    not premium and the selected plugin is not one of the four free
    ones, and it does so before anything is sent to the store. *)
Theorem access_gate_first (clock : Clock) (user_id selectedPlugin chatSettings_model : string)
        (r : Redis) :
  (isPremiumUser user_id = false -> includes freePlugins selectedPlugin = false ->
   exists text,
     POST_here clock user_id selectedPlugin chatSettings_model r = Ok (AccessDenied text, r))
  /\ (forall text r',
        POST_here clock user_id selectedPlugin chatSettings_model r = Ok (AccessDenied text, r') ->
        isPremiumUser user_id = false /\ includes freePlugins selectedPlugin = false /\ r' = r).
Proof.
  unfold POST_admission. split.
  - intros -> ->. cbn [negb andb]. eexists. reflexivity.
  - intros text r'.
    destruct (includes freePlugins selectedPlugin), (isPremiumUser user_id); cbn [negb andb];
      try (intros [= _ <-]; now repeat split);
      unfold bind;
      (destruct (api_here _ _ _ _ r) as [[[[resp1 res1]|] r1]|e]; [discriminate | | discriminate]);
      (destruct (api_here _ _ _ _ r1) as [[[[resp2 res2]|] r2]|e]; discriminate).
Qed.

(** X10.  The plugins budget is charged before the budget of the
    model: when the first check admits the request and the second one
    denies it, the handler answers with the 429 response of the second
    check, and the request it refuses stays recorded in the plugins
    record of the user. *)
Theorem plugins_budget_spent_on_refusal (clock : Clock)
        (user_id selectedPlugin chatSettings_model : string)
        (r r1 r2 : Redis) (res1 res2 : RateLimitResult) :
  isRateLimiterEnabled env = true ->
  (includes freePlugins selectedPlugin = true \/ isPremiumUser user_id = true) ->
  ratelimit_here (plugins_read clock) (plugins_write clock) user_id "plugins" r
  = Ok (res1, r1) ->
  allowed res1 = true ->
  ratelimit_here (model_read clock) (model_write clock) user_id
                 (ratelimitmodel chatSettings_model) r1
  = Ok (res2, r2) ->
  allowed res2 = false ->
  exists response,
    POST_here clock user_id selectedPlugin chatSettings_model r = Ok (RateLimited response, r2)
    /\ status response = 429
    /\ body_timeRemaining (response_body response) = timeRemaining res2
    /\ In (plugins_write clock) (members_of (data r2) (_makeStorageKey user_id "plugins")).
Proof.
  intros Hon Haccess Hrun1 Hall1 Hrun2 Hall2.
  unfold POST_admission.
  assert ((negb (includes freePlugins selectedPlugin) && negb (isPremiumUser user_id))%bool
          = false) as ->.
  { destruct Haccess as [-> | ->]; [reflexivity | apply andb_false_r]. }
  unfold bind. rewrite (api_of_ratelimit _ _ _ _ _ _ _ Hrun1), Hall1.
  rewrite (api_of_ratelimit _ _ _ _ _ _ _ Hrun2), Hall2.
  eexists. split; [reflexivity|]. cbn [status response_body body_timeRemaining].
  split; [reflexivity|]. split; [reflexivity|].
  rewrite (denied_writes_nothing _ _ _ _ _ _ _ Hrun2 Hall2).
  exact (admitted_is_recorded _ _ _ _ _ _ _ Hon Hrun1 Hall1).
Qed.

(** X11.  A request the handler lets through has been charged to both
    budgets: its two write instants are recorded, one in the plugins
    record and one in the record of the model's class, which is always
    another record. *)
Theorem proceed_is_charged_twice (clock : Clock)
        (user_id selectedPlugin chatSettings_model : string) (r r' : Redis) :
  isRateLimiterEnabled env = true ->
  POST_here clock user_id selectedPlugin chatSettings_model r = Ok (Proceed, r') ->
  _makeStorageKey user_id (ratelimitmodel chatSettings_model)
  <> _makeStorageKey user_id "plugins"
  /\ In (plugins_write clock) (members_of (data r') (_makeStorageKey user_id "plugins"))
  /\ In (model_write clock)
        (members_of (data r') (_makeStorageKey user_id (ratelimitmodel chatSettings_model))).
Proof.
  intros Hon. unfold POST_admission.
  assert (_makeStorageKey user_id (ratelimitmodel chatSettings_model)
          <> _makeStorageKey user_id "plugins") as Hkeys.
  { unfold _makeStorageKey, ratelimitmodel. intros H.
    apply (inj (String.app "ratelimit:")), (inj (String.app user_id)) in H.
    destruct (String.eqb chatSettings_model "mistral-medium"); [discriminate|].
    destruct (String.eqb chatSettings_model "mistral-large"); discriminate. }
  destruct (negb _ && negb _)%bool; [discriminate|].
  unfold bind.
  destruct (ratelimit_here (plugins_read clock) (plugins_write clock) user_id "plugins" r)
    as [[res1 r1]|e] eqn:Hrun1.
  - rewrite (api_of_ratelimit _ _ _ _ _ _ _ Hrun1).
    destruct (allowed res1) eqn:Hall1; [|discriminate].
    destruct (ratelimit_here (model_read clock) (model_write clock) user_id
                             (ratelimitmodel chatSettings_model) r1)
      as [[res2 r2]|e] eqn:Hrun2.
    + rewrite (api_of_ratelimit _ _ _ _ _ _ _ Hrun2).
      destruct (allowed res2) eqn:Hall2; [|discriminate].
      intros [= <-]. split; [exact Hkeys|]. split.
      * pose proof (admitted_is_recorded _ _ _ _ _ _ _ Hon Hrun1 Hall1) as Hin.
        pose proof (ratelimit_other_keys _ _ _ _ _ _ _ _ _ _ Hrun2) as Hframe.
        unfold members_of in *. rewrite Hframe; [exact Hin|]. congruence.
      * exact (admitted_is_recorded _ _ _ _ _ _ _ Hon Hrun2 Hall2).
    + unfold checkRatelimitOnApi at 1, bind. rewrite Hrun2. discriminate.
  - unfold checkRatelimitOnApi at 1, bind. rewrite Hrun1. discriminate.
Qed.

End PluginsRouteProperties.

(** * The plugin detector *)

Section DetectorStrings.

Import PluginDetector.

Lemma lower_ascii_idempotent (c : ascii) : lower_ascii (lower_ascii c) = lower_ascii c.
Proof. destruct c as [[] [] [] [] [] [] [] []]; reflexivity. Qed.

Lemma lower_ascii_space (c : ascii) : is_space (lower_ascii c) = is_space c.
Proof. destruct c as [[] [] [] [] [] [] [] []]; reflexivity. Qed.

Lemma toLowerCase_idempotent (s : string) : toLowerCase (toLowerCase s) = toLowerCase s.
Proof.
  unfold toLowerCase. induction s as [|c s IH]; [reflexivity|].
  cbn. now rewrite lower_ascii_idempotent, IH.
Qed.

Lemma toLowerCase_app (s t : string) : toLowerCase (s ++ t) = toLowerCase s ++ toLowerCase t.
Proof.
  unfold toLowerCase. induction s as [|c s IH]; [reflexivity|].
  change (String c s ++ t) with (String c (s ++ t)). cbn [map_string]. rewrite IH.
  reflexivity.
Qed.

Lemma toLowerCase_trimStart (s : string) :
  toLowerCase (trimStart s) = trimStart (toLowerCase s).
Proof.
  unfold toLowerCase. induction s as [|c s IH]; [reflexivity|].
  cbn. rewrite lower_ascii_space. now destruct (is_space c).
Qed.

Lemma toLowerCase_trimEnd (s : string) :
  toLowerCase (trimEnd s) = trimEnd (toLowerCase s).
Proof.
  unfold toLowerCase. induction s as [|c s IH]; [reflexivity|].
  cbn. rewrite <- IH, lower_ascii_space.
  destruct (trimEnd s); [now destruct (is_space c) | reflexivity].
Qed.

Lemma toLowerCase_trim (s : string) : toLowerCase (trim s) = trim (toLowerCase s).
Proof. unfold trim. now rewrite toLowerCase_trimEnd, toLowerCase_trimStart. Qed.

(** What [extractXML] returns is the default value or a text in lower case. *)
Lemma extractXML_lower (aiResponse xmlTag defaultValue : string) :
  extractXML aiResponse xmlTag defaultValue = defaultValue
  \/ toLowerCase (extractXML aiResponse xmlTag defaultValue)
     = extractXML aiResponse xmlTag defaultValue.
Proof.
  unfold extractXML.
  destruct (indexOf _ _) as [i|]; [|now left].
  destruct (indexOf _ _) as [j|]; [|now left].
  right. now rewrite toLowerCase_trim, toLowerCase_idempotent.
Qed.

End DetectorStrings.

Section Detector.

Import PluginDetector.

Variable env : gmap string string.
Variable Number : string -> JSNumber.
Variable isPremiumUser : string -> bool.
Variable parseFloat : string -> JSNumber.
Variables GPT4o_modelId HGPT4_modelId : string.

Local Abbreviation POST_here :=
  (POST env Number isPremiumUser parseFloat GPT4o_modelId HGPT4_modelId).
Local Abbreviation rateLimitIdentifier_here :=
  (rateLimitIdentifier GPT4o_modelId HGPT4_modelId).

Lemma validModerationLevel_range (m : JSNumber) :
  moderation_in_range (validModerationLevel m).
Proof.
  unfold validModerationLevel, moderation_in_range.
  destruct m as [|q]; cbn [isNaN]; [now left|].
  destruct (lt (Num q) (of_Z 0)) eqn:Hneg; [now left|].
  destruct (lt (of_Z 1) (Num q)) eqn:Hbig; right.
  - exists 1%Q. repeat split; [discriminate | discriminate].
  - exists q. split; [reflexivity|].
    unfold lt, of_Z in *. apply negb_false_iff in Hneg, Hbig.
    apply Qle_bool_iff in Hneg, Hbig. split; assumption.
Qed.

Lemma isAvailable_general (d : string) :
  isAvailable generalPlugins d
  = (String.eqb "websearch" (toLowerCase d) || String.eqb "basellm" (toLowerCase d))%bool.
Proof. unfold isAvailable, generalPlugins. cbn [existsb name]. now rewrite orb_false_r. Qed.

(** The plugin [detectPlugin] settles on, among the general plugins. *)
Lemma detectPlugin_general (aiResponse : option string) :
  let d := fst (detectPlugin parseFloat aiResponse generalPlugins) in
  d = "None" \/ d = "websearch".
Proof.
  destruct aiResponse as [a|]; [|now left].
  cbn [detectPlugin fst]. unfold determinePlugin.
  set (x := extractXML a "Plugin" "None").
  destruct (String.eqb x "websearch" && _)%bool; [now right|].
  destruct (String.eqb x "none" || String.eqb x "basellm")%bool eqn:Hbase; [now left|].
  destruct (isAvailable generalPlugins x) eqn:Have; [|now left].
  apply orb_false_iff in Hbase as [_ Hbase]. apply String.eqb_neq in Hbase.
  rewrite isAvailable_general in Have.
  destruct (extractXML_lower a "Plugin" "None") as [Hx|Hx]; fold x in Hx.
  - rewrite Hx in Have. discriminate.
  - rewrite Hx in Have. apply orb_true_iff in Have as [H|H]; apply String.eqb_eq in H.
    + now right.
    + congruence.
Qed.

Lemma caught_shape (statusCode : option Z) :
  plugin (caught statusCode) = "None" /\ moderationLevel (caught statusCode) = of_Z (-1).
Proof. split; reflexivity. Qed.

(** X12.  Whatever the model answers and whatever throws in the
    handler, the response of the detector names the plugin
    ["websearch"] or ["None"] and its moderation level is [-1] or lies
    between [0] and [1]; a response whose status is not 200 names no
    plugin and has the level [-1].  When the peeked rate limit denies
    the request the status is 429; when the peek throws (an invalid
    limit configuration) it is 500; when the peek allows the request
    and the messages are built it is 200. *)
Theorem detector_answer_shape (now : Z) (profile : Attempt string)
        (chatSettings_model : string) (lastUserMessage : Attempt string)
        (messageLength_min messageLength_max : nat) (aiResponse : option string)
        (r : Redis) :
  let answer := POST_here now profile chatSettings_model lastUserMessage
                          messageLength_min messageLength_max aiResponse r in
  let peeked user_id :=
    peek env Number isPremiumUser now user_id (rateLimitIdentifier_here chatSettings_model) r in
  (plugin answer = "None" \/ plugin answer = "websearch")
  /\ moderation_in_range (moderationLevel answer)
  /\ (answer_status answer <> 200 ->
      plugin answer = "None" /\ moderationLevel answer = of_Z (-1))
  /\ (forall user_id check r',
        profile = Returns user_id -> peeked user_id = Ok (check, r') ->
        allowed check = false ->
        answer = mkAnswer "None" (of_Z (-1)) 429)
  /\ (forall user_id e,
        profile = Returns user_id -> peeked user_id = Throw e ->
        answer = mkAnswer "None" (of_Z (-1)) 500)
  /\ (forall user_id check r' message,
        profile = Returns user_id -> peeked user_id = Ok (check, r') ->
        allowed check = true -> lastUserMessage = Returns message ->
        answer_status answer = 200).
Proof.
  cbn zeta. unfold peek.
  assert (moderation_in_range (of_Z (-1))) as Hminus by now left.
  split; [|split; [|split; [|split; [|split]]]].
  - unfold POST. destruct profile as [user_id|code]; [|now left].
    destruct (checkRateLimitWithoutIncrementing _ _ _ _ _ _ _) as [[check r']|e]; [|now left].
    destruct (allowed check); cbn [negb]; [|now left].
    destruct lastUserMessage as [message|code]; [|now left].
    destruct (_ <? _)%nat; [now left|]. destruct (_ <? _)%nat; [now left|].
    cbn [plugin]. destruct (isAvailable _ _); [|now left].
    apply detectPlugin_general.
  - unfold POST. destruct profile as [user_id|code]; [|exact Hminus].
    destruct (checkRateLimitWithoutIncrementing _ _ _ _ _ _ _) as [[check r']|e];
      [|exact Hminus].
    destruct (allowed check); cbn [negb]; [|exact Hminus].
    destruct lastUserMessage as [message|code]; [|exact Hminus].
    destruct (_ <? _)%nat.
    { right. exists 0%Q. repeat split; discriminate. }
    destruct (_ <? _)%nat; [exact Hminus|].
    cbn [moderationLevel]. destruct aiResponse as [a|]; cbn [detectPlugin snd]; [|exact Hminus].
    apply validModerationLevel_range.
  - unfold POST. destruct profile as [user_id|code]; [|intros _; apply caught_shape].
    destruct (checkRateLimitWithoutIncrementing _ _ _ _ _ _ _) as [[check r']|e];
      [|intros _; apply caught_shape].
    destruct (allowed check); cbn [negb]; [|intros _; split; reflexivity].
    destruct lastUserMessage as [message|code]; [|intros _; apply caught_shape].
    destruct (_ <? _)%nat; [intros H; now destruct H|].
    destruct (_ <? _)%nat; intros H; now destruct H.
  - intros user_id check r' -> Hpeek Hdenied. unfold POST.
    rewrite Hpeek, Hdenied. reflexivity.
  - intros user_id e -> Hpeek. unfold POST. rewrite Hpeek. reflexivity.
  - intros user_id check r' message -> Hpeek Hallowed ->. unfold POST.
    rewrite Hpeek, Hallowed. cbn [negb].
    destruct (_ <? _)%nat; [reflexivity|]. destruct (_ <? _)%nat; reflexivity.
Qed.

(** X13.  When a plugin called ["websearch"] is available, the plugin
    [determinePlugin] returns does not depend on the moderation level:
    the test [moderationLevel < 0.9] gates nothing. *)
Theorem moderation_gates_nothing (detectedPlugin : string) (m1 m2 : JSNumber)
        (availablePlugins : list Plugin) :
  isAvailable availablePlugins "websearch" = true ->
  determinePlugin detectedPlugin m1 availablePlugins
  = determinePlugin detectedPlugin m2 availablePlugins.
Proof.
  intros Hweb. unfold determinePlugin.
  destruct (String.eqb_spec detectedPlugin "websearch") as [->|Hne]; [|reflexivity].
  cbn [andb String.eqb orb]. rewrite Hweb.
  destruct (lt m1 _), (lt m2 _); reflexivity.
Qed.

Lemma moderation_gates_nothing_witness :
  determinePlugin "websearch" (of_Z 1) generalPlugins
  = determinePlugin "websearch" (of_Z 0) generalPlugins
  /\ determinePlugin "websearch" (of_Z 1) generalPlugins = "websearch".
Proof.
  split.
  - apply moderation_gates_nothing. reflexivity.
  - reflexivity.
Defined.

End Detector.

Section Extraction.

Import PluginDetector.

Lemma app_cons (c : ascii) (s t : string) : String c s ++ t = String c (s ++ t).
Proof. reflexivity. Qed.

Lemma string_app_assoc (s t u : string) : (s ++ t) ++ u = s ++ t ++ u.
Proof. induction s as [|c s IH]; [reflexivity|]. now rewrite !app_cons, IH. Qed.

Lemma prefix_cons (c d : ascii) (p s : string) :
  String.prefix (String c p) (String d s)
  = (if Ascii.ascii_dec c d then String.prefix p s else false).
Proof. reflexivity. Qed.

Lemma prefix_app (p t : string) : String.prefix p (p ++ t) = true.
Proof.
  induction p as [|c p IH]; [now destruct t|].
  rewrite app_cons, prefix_cons. now destruct (Ascii.ascii_dec c c).
Qed.

Lemma indexOf_prefix (needle hay : string) :
  String.prefix needle hay = true -> indexOf needle hay = Some 0%nat.
Proof. intros H. destruct hay; cbn [indexOf]; now rewrite H. Qed.

Lemma indexOf_cons (c d : ascii) (needle hay : string) :
  c <> d ->
  indexOf (String c needle) (String d hay) = option_map S (indexOf (String c needle) hay).
Proof.
  intros Hne. cbn [indexOf]. rewrite prefix_cons.
  now destruct (Ascii.ascii_dec c d).
Qed.

Lemma lacks_cons (c d : ascii) (s : string) :
  lacks c (String d s) = true -> c <> d /\ lacks c s = true.
Proof.
  cbn [lacks]. intros [Hd Hs]%andb_true_iff. split; [|exact Hs].
  intros ->. rewrite Ascii.eqb_refl in Hd. discriminate.
Qed.

Lemma indexOf_after (c : ascii) (needle pre post : string) :
  lacks c pre = true ->
  indexOf (String c needle) (pre ++ String c needle ++ post) = Some (String.length pre).
Proof.
  intros Hpre. induction pre as [|d pre IH].
  - apply indexOf_prefix. exact (prefix_app (String c needle) post).
  - apply lacks_cons in Hpre as [Hne Hpre].
    rewrite app_cons, (indexOf_cons _ _ _ _ Hne), (IH Hpre). reflexivity.
Qed.

Lemma indexOf_lacks (c : ascii) (needle text : string) :
  lacks c text = true -> indexOf (String c needle) text = None.
Proof.
  induction text as [|d text IH]; intros H; [reflexivity|].
  apply lacks_cons in H as [Hne H].
  now rewrite (indexOf_cons _ _ _ _ Hne), (IH H).
Qed.

Lemma from_app (s t : string) : from (String.length s) (s ++ t) = t.
Proof. induction s as [|c s IH]; [now destruct t | exact IH]. Qed.

Lemma from_add (a b : nat) (s : string) : from (a + b) s = from b (from a s).
Proof.
  revert s. induction a as [|a IH]; intros s; [reflexivity|].
  destruct s as [|c s]; cbn [Nat.add from]; [now destruct b | apply IH].
Qed.

Lemma substring_app (s t : string) : String.substring 0 (String.length s) (s ++ t) = s.
Proof.
  induction s as [|c s IH]; [now destruct t|].
  rewrite app_cons. cbn. now rewrite IH.
Qed.

Lemma lacks_lower (s : string) : lacks "<"%char (toLowerCase s) = lacks "<"%char s.
Proof.
  unfold toLowerCase. induction s as [|c s IH]; [reflexivity|].
  cbn [map_string lacks]. rewrite IH. f_equal. f_equal.
  destruct c as [[] [] [] [] [] [] [] []]; reflexivity.
Qed.

Lemma opening_shape (tag rest : string) :
  "<" ++ tag ++ ">" ++ rest = String "<"%char (tag ++ ">") ++ rest.
Proof.
  change ("<" ++ tag ++ ">" ++ rest) with (String "<"%char (tag ++ ">" ++ rest)).
  now rewrite (app_cons "<"%char (tag ++ ">") rest), string_app_assoc.
Qed.

Lemma closing_shape (tag rest : string) :
  "</" ++ tag ++ ">" ++ rest = String "<"%char ("/" ++ tag ++ ">") ++ rest.
Proof.
  change ("</" ++ tag ++ ">" ++ rest) with (String "<"%char ("/" ++ tag ++ ">" ++ rest)).
  rewrite (app_cons "<"%char ("/" ++ tag ++ ">") rest). f_equal.
  change ("/" ++ tag ++ ">" ++ rest) with (String "/"%char (tag ++ ">" ++ rest)).
  change (("/" ++ tag ++ ">") ++ rest) with (String "/"%char ((tag ++ ">") ++ rest)).
  now rewrite string_app_assoc.
Qed.

(** X14.  [extractXML] reads a tag of letters and digits whatever the
    letter case of its name in the answer: when the text before the opening tag and the
    text inside the tag hold no ["<"], it returns the inside of the
    tag in lower case and trimmed.  It returns the default value for
    a tag that is opened and not closed, and for a text without
    ["<"]. *)
Theorem extractXML_reads_tag (xmlTag opened closed pre inside post defaultValue : string) :
  is_word xmlTag = true ->
  toLowerCase opened = toLowerCase xmlTag ->
  toLowerCase closed = toLowerCase xmlTag ->
  lacks "<"%char pre = true ->
  lacks "<"%char inside = true ->
  extractXML (pre ++ "<" ++ opened ++ ">" ++ inside ++ "</" ++ closed ++ ">" ++ post)
             xmlTag defaultValue
  = trim (toLowerCase inside)
  /\ extractXML (pre ++ "<" ++ opened ++ ">" ++ inside) xmlTag defaultValue = defaultValue
  /\ extractXML pre xmlTag defaultValue = defaultValue.
Proof.
  intros _ Hopen Hclose Hpre Hinside.
  rewrite <- lacks_lower in Hpre, Hinside.
  unfold extractXML. rewrite !toLowerCase_app, Hopen, Hclose.
  change (toLowerCase "<") with "<". change (toLowerCase ">") with ">".
  change (toLowerCase "</") with "</".
  set (tag := toLowerCase xmlTag) in *. set (p := toLowerCase pre) in *.
  set (body := toLowerCase inside) in *.
  rewrite closing_shape, !opening_shape.
  change ("</" ++ tag ++ ">") with (String "<"%char ("/" ++ tag ++ ">")).
  change ("<" ++ tag ++ ">") with (String "<"%char (tag ++ ">")).
  split; [|split].
  - rewrite (indexOf_after _ _ _ _ Hpre), from_add, !from_app.
    rewrite (indexOf_after _ _ _ _ Hinside), substring_app.
    unfold body. now rewrite toLowerCase_idempotent.
  - rewrite (indexOf_after _ _ _ _ Hpre), from_add, !from_app.
    now rewrite (indexOf_lacks _ _ _ Hinside).
  - now rewrite (indexOf_lacks _ _ _ Hpre).
Qed.

Lemma extractXML_reads_tag_witness :
  extractXML "I pick <PLUGIN> WebSearch </Plugin> then <ModerationLevel>0.2</ModerationLevel>"
             "Plugin" "None"
  = "websearch".
Proof.
  destruct (extractXML_reads_tag "Plugin" "PLUGIN" "Plugin" "I pick " " WebSearch "
              " then <ModerationLevel>0.2</ModerationLevel>" "None")
    as [H _]; [reflexivity | reflexivity | reflexivity | reflexivity | reflexivity |].
  exact H.
Defined.

End Extraction.

Section DetectorMessages.

Import PluginDetector.

Lemma slice_middle {A : Type} (a z : A) (mid : list A) :
  slice (a :: mid ++ [z])%list 1 (Some (-1)) = mid.
Proof.
  unfold slice. cbn [length]. rewrite length_app. cbn [length].
  change (1 <? 0) with false. change (-1 <? 0) with true. cbn match.
  match goal with
  | |- firstn ?n (skipn ?k _) = _ =>
      replace n with (length mid) by lia; replace k with 1%nat by lia
  end.
  change (skipn 1 (a :: mid ++ [z])%list) with (mid ++ [z])%list.
  rewrite firstn_app, Nat.sub_diag, firstn_all. cbn [firstn].
  apply app_nil_r.
Qed.

Lemma slice_short {A : Type} (l : list A) :
  (length l <= 2)%nat -> slice l 1 (Some (-1)) = [].
Proof.
  intros H. unfold slice.
  change (1 <? 0) with false. change (-1 <? 0) with true. cbn match.
  match goal with
  | |- firstn ?n _ = _ => replace n with 0%nat by lia
  end.
  reflexivity.
Qed.

Lemma slice_last_four {A : Type} (l : list A) :
  slice l (-4) None = skipn (length l - 4) l.
Proof.
  unfold slice. change (-4 <? 0) with true. cbn match.
  match goal with
  | |- firstn ?n (skipn ?k _) = _ =>
      replace k with (length l - 4)%nat by lia;
      replace n with (length l - (length l - 4))%nat by lia
  end.
  apply firstn_all2. rewrite length_skipn. lia.
Qed.

(** X15.  The chat history sent to the model leaves out the first and
    the last message and keeps the last four of the others, in order
    (all of them when there are fewer); with two messages or fewer it
    is empty.  So the model is sent at most six messages: the system
    message first, the user message last. *)
Theorem chat_history_window (messages : list Message) (systemMessage userMessage : string) :
  ((length messages <= 2)%nat -> chatHistory messages = [])
  /\ (forall first last middle,
        messages = (first :: middle ++ [last])%list ->
        chatHistory messages = skipn (length middle - 4) middle)
  /\ length (chatHistory messages) = Nat.min 4 (length messages - 2)
  /\ (length (buildMessagesToSend (chatHistory messages) systemMessage userMessage) <= 6)%nat
  /\ head (buildMessagesToSend (chatHistory messages) systemMessage userMessage)
     = Some (mkMessage "system" (Plain systemMessage))
  /\ last (buildMessagesToSend (chatHistory messages) systemMessage userMessage)
     = Some (mkMessage "user" (Plain userMessage)).
Proof.
  assert (forall first last middle,
             messages = (first :: middle ++ [last])%list ->
             chatHistory messages = skipn (length middle - 4) middle) as Hmid.
  { intros first last middle ->. unfold chatHistory.
    now rewrite slice_middle, slice_last_four. }
  assert ((length messages <= 2)%nat -> chatHistory messages = []) as Hshort.
  { intros H. unfold chatHistory. now rewrite (slice_short _ H). }
  assert (length (chatHistory messages) = Nat.min 4 (length messages - 2)) as Hlen.
  { destruct messages as [|first rest]; [reflexivity|].
    destruct rest as [|second rest]; [reflexivity|].
    destruct (exists_last (l := second :: rest)) as (middle & last & Heq); [discriminate|].
    rewrite (Hmid first last middle) by now rewrite Heq.
    assert (length (second :: rest) = (length middle + 1)%nat) as Hrest
      by (rewrite Heq, length_app; cbn [length]; lia).
    rewrite length_skipn. cbn [length] in *. lia. }
  split; [exact Hshort|]. split; [exact Hmid|]. split; [exact Hlen|].
  unfold buildMessagesToSend. split; [|split].
  - cbn [app length]. rewrite length_app, Hlen. cbn [length]. lia.
  - reflexivity.
  - rewrite app_assoc. apply last_snoc.
Qed.



End DetectorMessages.

(** * The command line of the port scanner *)

Section PortScannerProperties.

Import PortScanner.

Lemma includes_In (l : list string) (x : string) : includes l x = true -> In x l.
Proof.
  unfold includes. intros (y & Hy & Heq)%existsb_exists.
  apply String.eqb_eq in Heq. now subst.
Qed.

Lemma flagMap_host (flag : string) : flagMap flag = Some Host -> flag = "-host".
Proof.
  unfold flagMap. destruct (String.eqb_spec flag "-host"); [easy|].
  repeat (destruct (String.eqb flag _); [discriminate|]). discriminate.
Qed.

Lemma split_on_nonempty (sep : ascii) (s cur : string) : split_on sep s cur <> [].
Proof.
  revert cur. induction s as [|c s IH]; intros cur; cbn; [discriminate|].
  destruct (Ascii.eqb c sep); [discriminate | apply IH].
Qed.

(** A turn keeps well-formed parameters well formed, and a turn that
    stops returns an error or throws. *)
Lemma turn_well_formed (params : PortScannerParams) (flag : string) (param : ParamKey)
      (value : option string) :
  well_formed_params params ->
  match turn params flag param value with
  | Continue params' =>
      well_formed_params params'
      /\ (host params <> [] -> host params' <> [])
      /\ (param = Host -> host params' <> [])
  | Stop (Returned result) => error result <> None
  | Stop TypeError => param = Host /\ value = None
  end.
Proof.
  intros (Herr & Hscan & Htop). unfold turn, well_formed_params.
  destruct param.
  - destruct value as [v|]; [|now split]. cbn [error scanType topPorts host].
    repeat split; try assumption; intros; apply split_on_nonempty.
  - destruct value as [v|]; [|discriminate].
    destruct (includes _ v) eqn:Hin; [|discriminate]. cbn [error scanType topPorts host].
    repeat split; try assumption; try discriminate; try tauto. now apply includes_In.
  - destruct (negb _); [discriminate|]. cbn [error scanType topPorts host].
    repeat split; try assumption; try discriminate; tauto.
  - destruct (negb _); [discriminate|].
    destruct value as [v|]; [|discriminate].
    destruct (includes _ v) eqn:Hin; [|discriminate]. cbn [error scanType topPorts host].
    repeat split; try assumption; try discriminate; try tauto.
    right. now apply includes_In.
  - destruct (negb _); [discriminate|]. cbn [error scanType topPorts host].
    repeat split; try assumption; try discriminate; tauto.
  - repeat split; try assumption; try discriminate; tauto.
Qed.

Lemma finish_accepted (params result : PortScannerParams) :
  finish params = Returned result -> error result = None ->
  result = params /\ host params <> [].
Proof.
  unfold finish. destruct (host params) eqn:Hhost.
  - intros [= <-]. discriminate.
  - intros [= <-] _. split; [reflexivity | discriminate].
Qed.

(** What the loop returns without an error. *)
Lemma loop_accepted (n : nat) :
  forall (args : list string) (params result : PortScannerParams),
    (length args <= n)%nat ->
    well_formed_params params ->
    loop args params = Returned result ->
    error result = None ->
    well_formed_params result /\ host result <> [].
Proof.
  induction n as [|n IH]; intros args params result Hlen Hwf.
  - destruct args; [|cbn in Hlen; lia]. cbn [loop]. intros Hfin Herr.
    apply finish_accepted in Hfin as [-> Hhost]; [now split | exact Herr].
  - destruct args as [|flag rest]; cbn [loop].
    { intros Hfin Herr. apply finish_accepted in Hfin as [-> Hhost]; [now split | exact Herr]. }
    destruct (flagMap flag) as [param|]; [|intros [= <-]; discriminate].
    destruct rest as [|value rest].
    + pose proof (turn_well_formed params flag param None Hwf) as Hturn.
      destruct (turn params flag param None) as [params'|[bad|]].
      * destruct Hturn as (Hwf' & _ & _). intros Hfin Herr.
        apply finish_accepted in Hfin as [-> Hhost]; [now split | exact Herr].
      * intros [= <-] Herr. contradiction.
      * discriminate.
    + pose proof (turn_well_formed params flag param (Some value) Hwf) as Hturn.
      destruct (turn params flag param (Some value)) as [params'|[bad|]].
      * destruct Hturn as (Hwf' & _ & _). apply IH; [cbn in Hlen; lia | exact Hwf'].
      * intros [= <-] Herr. contradiction.
      * discriminate.
Qed.

(** X17.  A command that [parseCommandLine] accepts (it returns without
    an error) has at most 500 characters and names at least one host;
    its scan type is ["light"], ["deep"] or ["custom"], and its
    top-ports value is empty, ["full"], ["100"] or ["1000"]. *)
Theorem accepted_command (input : string) (params : PortScannerParams) :
  parseCommandLine input = Returned params ->
  error params = None ->
  (String.length input <= 500)%nat
  /\ host params <> []
  /\ In (scanType params) ["light"; "deep"; "custom"]
  /\ In (topPorts params) [""; "full"; "100"; "1000"].
Proof.
  unfold parseCommandLine, MAX_INPUT_LENGTH.
  destruct (Nat.ltb_spec 500 (String.length input)) as [Hlong|Hshort].
  - intros [= <-]. discriminate.
  - intros Hloop Herr. split; [exact Hshort|].
    destruct (loop_accepted _ (arguments input) initial params (Nat.le_refl _)) as [Hwf Hhost];
      [| exact Hloop | exact Herr |].
    + unfold well_formed_params, initial. cbn. tauto.
    + destruct Hwf as (_ & Hscan & Htop). now repeat split.
Qed.

Lemma accepted_command_witness :
  parseCommandLine "/portscanner -host A.com,b.org -st custom -p 80 -tp 100"
  = Returned (mkParams ["a.com"; "b.org"] "custom" (Some "80") "100" false None)
  /\ (String.length "/portscanner -host A.com,b.org -st custom -p 80 -tp 100" <= 500)%nat.
Proof.
  split; [vm_compute; reflexivity|].
  apply (accepted_command "/portscanner -host A.com,b.org -st custom -p 80 -tp 100"
           (mkParams ["a.com"; "b.org"] "custom" (Some "80") "100" false None));
    vm_compute; reflexivity.
Defined.

Lemma turn_throws (params : PortScannerParams) (flag : string) (param : ParamKey)
      (value : option string) :
  turn params flag param value = Stop TypeError -> param = Host /\ value = None.
Proof.
  unfold turn. destruct param, value;
    repeat match goal with
           | |- context [if ?b then _ else _] => destruct b
           end;
    try discriminate; now split.
Qed.

Lemma loop_throws (n : nat) :
  forall (args : list string) (params : PortScannerParams),
    (length args <= n)%nat ->
    loop args params = TypeError ->
    last args = Some "-host".
Proof.
  induction n as [|n IH]; intros args params Hlen.
  - destruct args; [|cbn in Hlen; lia]. cbn [loop]. unfold finish.
    destruct (host params); discriminate.
  - destruct args as [|flag rest]; cbn [loop].
    { unfold finish. destruct (host params); discriminate. }
    destruct (flagMap flag) as [param|] eqn:Hflag; [|discriminate].
    destruct rest as [|value rest].
    + destruct (turn params flag param None) as [params'|[bad|]] eqn:Hturn.
      * unfold finish. destruct (host params'); discriminate.
      * discriminate.
      * intros _. apply turn_throws in Hturn as [-> _].
        apply flagMap_host in Hflag. now subst.
    + destruct (turn params flag param (Some value)) as [params'|[bad|]] eqn:Hturn.
      * intros Hloop. apply IH in Hloop; [|cbn in Hlen; lia].
        destruct rest as [|x rest]; [discriminate|]. exact Hloop.
      * discriminate.
      * apply turn_throws in Hturn as [_ Hvalue]. discriminate.
Qed.

(** X18.  [parseCommandLine] throws only on a command whose last word
    is the flag [-host], in any letter case: the flag is then read
    without its value.  A command that is just a name followed by
    [-host] does throw. *)
Theorem missing_host_value (input : string) :
  (parseCommandLine input = TypeError -> last (arguments input) = Some "-host")
  /\ (arguments input = ["-host"] -> (String.length input <= 500)%nat ->
      parseCommandLine input = TypeError).
Proof.
  unfold parseCommandLine, MAX_INPUT_LENGTH. split.
  - destruct (_ <? _)%nat; [discriminate|].
    apply (loop_throws _ _ _ (Nat.le_refl _)).
  - intros -> Hshort. destruct (Nat.ltb_spec 500 (String.length input)); [lia | reflexivity].
Qed.

Lemma missing_host_value_witness :
  parseCommandLine "/portscanner -HOST" = TypeError
  /\ last (arguments "/portscanner -HOST") = Some "-host".
Proof.
  destruct (missing_host_value "/portscanner -HOST") as [Honly Hthrows].
  assert (parseCommandLine "/portscanner -HOST" = TypeError) as H.
  { apply Hthrows; [reflexivity | cbn; lia]. }
  split; [exact H | exact (Honly H)].
Defined.

(** X19.  The body of the request sent to the scanner for an accepted
    command always holds the host list and the scan type, never an
    error, and no empty value: every string and list in it has at
    least one element, and a flag in it is [true]. *)
Theorem request_body_of_accepted (input : string) (params : PortScannerParams) :
  parseCommandLine input = Returned params ->
  error params = None ->
  In ("host", Strings (host params)) (requestBody params)
  /\ In ("scanType", Text (scanType params)) (requestBody params)
  /\ (forall value, ~ In ("error", value) (requestBody params))
  /\ Forall (fun entry => kept (snd entry) = true) (requestBody params).
Proof.
  intros Hparse Herr.
  assert (host params <> [] /\ In (scanType params) ["light"; "deep"; "custom"]) as [Hhost Hscan].
  { unfold parseCommandLine in Hparse. destruct (_ <? _)%nat.
    - injection Hparse as <-. discriminate.
    - destruct (loop_accepted _ (arguments input) initial params (Nat.le_refl _))
        as [(_ & Hscan & _) Hhost]; [| exact Hparse | exact Herr | now split].
      unfold well_formed_params, initial. cbn. tauto. }
  unfold requestBody. split; [|split; [|split]].
  - apply filter_In. split; [cbn; tauto|]. cbn.
    destruct (host params); [contradiction | reflexivity].
  - apply filter_In. split; [cbn; tauto|]. cbn in Hscan |- *.
    destruct Hscan as [<-|[<-|[<-|[]]]]; reflexivity.
  - intros value [Hin Hkept]%filter_In. cbn in Hin. rewrite Herr in Hin.
    destruct Hin as [H|[H|[H|[H|[H|[H|[]]]]]]]; try discriminate.
    injection H as <-. discriminate.
  - apply List.Forall_forall. intros entry [_ Hkept]%filter_In. exact Hkept.
Qed.

Lemma lacks_app (c : ascii) (s t : string) :
  lacks c (s ++ t) = (lacks c s && lacks c t)%bool.
Proof.
  induction s as [|d s IH]; [reflexivity|].
  rewrite app_cons. cbn [lacks]. now rewrite IH, andb_assoc.
Qed.

Lemma split_on_lacks (sep : ascii) (s cur : string) :
  lacks sep cur = true -> List.Forall (fun piece => lacks sep piece = true) (split_on sep s cur).
Proof.
  revert cur. induction s as [|c s IH]; intros cur Hcur; cbn [split_on].
  - now constructor.
  - destruct (Ascii.eqb c sep) eqn:Hc.
    + constructor; [exact Hcur | now apply IH].
    + apply IH. rewrite lacks_app, Hcur. cbn. now rewrite Hc.
Qed.

Lemma concat_lacks (c : ascii) (pieces : list string) :
  List.Forall (fun piece => lacks c piece = true) pieces ->
  lacks c (String.concat "" pieces) = true.
Proof.
  induction 1 as [|piece pieces Hpiece _ IH]; [reflexivity|].
  destruct pieces as [|next pieces]; [exact Hpiece|].
  change (String.concat "" (piece :: next :: pieces))
    with (piece ++ "" ++ String.concat "" (next :: pieces)).
  rewrite lacks_app, Hpiece. exact IH.
Qed.

(** X20.  The output of [processPortScannerData] is on one line: it
    holds no line feed, whatever the data. *)
Theorem processed_data_is_one_line (data : string) :
  lacks (ascii_of_nat 10) (processPortScannerData data) = true.
Proof.
  unfold processPortScannerData. apply concat_lacks.
  apply List.Forall_forall. intros line [Hin _]%filter_In.
  pose proof (split_on_lacks (ascii_of_nat 10) data "" eq_refl) as Hall.
  rewrite List.Forall_forall in Hall. now apply Hall.
Qed.

End PortScannerProperties.

(** * The further properties on concrete runs *)

Section MoreRuns.

Import PluginsRoute PluginDetector.

Ltac evaluate := vm_compute; first [reflexivity | discriminate | tauto].

Local Abbreviation gpt4_key := "ratelimit:u:GPT_4".
Local Abbreviation plugins_key := "ratelimit:u:PLUGINS".

Lemma ratelimit_traffic_witness :
  exists r',
    ratelimit env_example Number_example free_user 150 151 "u" "gpt-4" (store_with gpt4_key [1])
    = Ok (mkResult true (of_Z 0) None, r')
    /\ log r' = [Single (ZADD gpt4_key 151 151); Single (ZRANGE gpt4_key);
                 Single (ZCARD gpt4_key); Single (ZRANGE gpt4_key)].
Proof.
  destruct (ratelimit env_example Number_example free_user 150 151 "u" "gpt-4"
                      (store_with gpt4_key [1])) as [[res r']|e] eqn:Hrun;
    [|vm_compute in Hrun; discriminate].
  pose proof (ratelimit_traffic env_example Number_example free_user 150 151 "u" "gpt-4"
                (store_with gpt4_key [1]) r' res eq_refl Hrun) as Htraffic.
  vm_compute in Hrun. injection Hrun as <- <-.
  eexists. split; [reflexivity|]. reflexivity.
Defined.

Lemma ratelimit_frame_witness :
  exists r',
    ratelimit env_example Number_example free_user 150 151 "u" "gpt-4"
              (store_two gpt4_key [1] "ratelimit:v:GPT_4" [7])
    = Ok (mkResult true (of_Z 0) None, r')
    /\ data r' !! "ratelimit:v:GPT_4" = Some (mkSortedSet [7] None).
Proof.
  destruct (ratelimit env_example Number_example free_user 150 151 "u" "gpt-4"
                      (store_two gpt4_key [1] "ratelimit:v:GPT_4" [7]))
    as [[res r']|e] eqn:Hrun; [|vm_compute in Hrun; discriminate].
  destruct (ratelimit_frame env_example Number_example free_user 150 151 "u" "gpt-4"
              _ r' res Hrun) as [_ Hothers].
  specialize (Hothers "v" "gpt-4" eq_refl eq_refl ltac:(discriminate)).
  exists r'. split.
  - vm_compute in Hrun. injection Hrun as <- _. reflexivity.
  - refine (eq_trans Hothers _). reflexivity.
Defined.

Lemma limit_never_exceeded_witness :
  exists results r',
    admit_all (admit_call env_example Number_example "gpt-4" "u" false)
              [(5, 5); (5, 6); (2000, 2001); (2001, 2001); (2002, 2003)]
              (store_with gpt4_key [1; 3])
    = Ok (results, r')
    /\ cardinality r' gpt4_key <= 2.
Proof.
  destruct (admit_all (admit_call env_example Number_example "gpt-4" "u" false)
                      [(5, 5); (5, 6); (2000, 2001); (2001, 2001); (2002, 2003)]
                      (store_with gpt4_key [1; 3])) as [[results r']|e] eqn:Hrun;
    [|vm_compute in Hrun; discriminate].
  exists results, r'. split; [reflexivity|].
  apply (limit_never_exceeded env_example Number_example "gpt-4" "u" false 2 1000)
    with (calls := [(5, 5); (5, 6); (2000, 2001); (2001, 2001); (2002, 2003)])
         (r := store_with gpt4_key [1; 3]) (results := results).
  - evaluate.
  - evaluate.
  - repeat constructor; cbn; lia.
  - evaluate.
  - exact Hrun.
Defined.

Lemma peek_predicts_admit_witness :
  exists p rp a ra,
    peek env_example Number_example free_user 150 "u" "gpt-4" (store_with gpt4_key [1])
    = Ok (p, rp)
    /\ ratelimit env_example Number_example free_user 150 151 "u" "gpt-4" rp = Ok (a, ra)
    /\ allowed a = allowed p
    /\ remaining a = sub (remaining p) (of_Z 1).
Proof.
  destruct (peek env_example Number_example free_user 150 "u" "gpt-4"
                 (store_with gpt4_key [1])) as [[p rp]|e] eqn:Hpeek;
    [|vm_compute in Hpeek; discriminate].
  destruct (ratelimit env_example Number_example free_user 150 151 "u" "gpt-4" rp)
    as [[a ra]|e] eqn:Hrun;
    [|vm_compute in Hpeek; injection Hpeek as <- <-; vm_compute in Hrun; discriminate].
  destruct (peek_predicts_admit env_example Number_example free_user 150 151 "u" "gpt-4"
              (store_with gpt4_key [1]) rp ra p a) as (Hsame & Hless & _);
    [evaluate | exact Hpeek | exact Hrun |].
  exists p, rp, a, ra. split; [reflexivity|]. split; [exact Hrun|]. split; [exact Hsame|].
  apply Hless. vm_compute in Hpeek. injection Hpeek as <- _. reflexivity.
Defined.

Lemma reset_restores_budget_witness :
  exists r',
    resetRateLimit "gpt-4-turbo" "u" (store_with gpt4_key [1; 101]) = Ok (tt, r')
    /\ results_of (getRemaining env_example Number_example 150 "u" "gpt-4" false r')
       = Some (of_Z 2, None).
Proof.
  destruct (reset_restores_budget env_example Number_example "gpt-4-turbo" "u"
              (store_with gpt4_key [1; 101])) as (r' & Hreset & _ & Hfull).
  exists r'. split; [exact Hreset|].
  apply Hfull; evaluate.
Defined.

Lemma api_adapter_witness :
  exists response r',
    checkRatelimitOnApi env_example Number_example free_user time_text_example
                        no_prototype_name 201 201 "u" "gpt-4" (store_with gpt4_key [1; 101])
    = Ok (Some (response, mkResult false (of_Z 0) (Some (of_Z 800))), r')
    /\ status response = 429
    /\ data r' = data (store_with gpt4_key [1; 101]).
Proof.
  destruct (checkRatelimitOnApi env_example Number_example free_user time_text_example
              no_prototype_name 201 201 "u" "gpt-4" (store_with gpt4_key [1; 101]))
    as [[out r']|e] eqn:Hrun; [|vm_compute in Hrun; discriminate].
  pose proof (api_adapter env_example Number_example free_user time_text_example
                no_prototype_name 201 201 "u" "gpt-4" _ r' out Hrun) as Hshape.
  destruct out as [[response res]|]; [|vm_compute in Hrun; discriminate].
  destruct Hshape as (_ & _ & Hstatus & _ & _ & _ & Hdata).
  exists response, r'. split; [|split; assumption].
  vm_compute in Hrun. injection Hrun as <- <- <-. reflexivity.
Defined.

Lemma answers_well_formed_witness :
  exists res r',
    ratelimit env_example Number_example free_user 201 201 "u" "gpt-4"
              (store_with gpt4_key [1; 101]) = Ok (res, r')
    /\ well_formed res.
Proof.
  destruct (ratelimit env_example Number_example free_user 201 201 "u" "gpt-4"
                      (store_with gpt4_key [1; 101])) as [[res r']|e] eqn:Hrun;
    [|vm_compute in Hrun; discriminate].
  exists res, r'. split; [reflexivity|].
  destruct (answers_well_formed env_example Number_example free_user 201 201 "u" "gpt-4"
              (store_with gpt4_key [1; 101]) 2 1000) as [Hadmit _]; [evaluate .. |].
  exact (Hadmit res r' Hrun).
Defined.

Lemma access_gate_first_witness :
  exists text,
    POST_admission env_plugins Number_example free_user time_text_example no_prototype_name
                   (mkClock 1 1 2 2) "u" "nuclei" "mistral-medium" Store.empty
    = Ok (AccessDenied text, Store.empty).
Proof.
  apply (access_gate_first env_plugins Number_example free_user time_text_example
           no_prototype_name (mkClock 1 1 2 2) "u" "nuclei" "mistral-medium" Store.empty);
    reflexivity.
Defined.

Lemma plugins_budget_spent_on_refusal_witness :
  exists response r2,
    POST_admission env_plugins Number_example free_user time_text_example no_prototype_name
                   (mkClock 201 202 203 204) "u" "cvemap" "gpt-4-turbo-preview"
                   (store_with gpt4_key [1; 101])
    = Ok (RateLimited response, r2)
    /\ status response = 429
    /\ In 202 (members_of (data r2) plugins_key).
Proof.
  destruct (ratelimit env_plugins Number_example free_user 201 202 "u" "plugins"
                      (store_with gpt4_key [1; 101])) as [[res1 r1]|e] eqn:Hrun1;
    [|vm_compute in Hrun1; discriminate].
  destruct (ratelimit env_plugins Number_example free_user 203 204 "u" "gpt-4" r1)
    as [[res2 r2]|e] eqn:Hrun2;
    [|vm_compute in Hrun1; injection Hrun1 as <- <-; vm_compute in Hrun2; discriminate].
  destruct (plugins_budget_spent_on_refusal env_plugins Number_example free_user
              time_text_example no_prototype_name (mkClock 201 202 203 204)
              "u" "cvemap" "gpt-4-turbo-preview" (store_with gpt4_key [1; 101]) r1 r2 res1 res2)
    as (response & Hpost & Hstatus & _ & Hin).
  - evaluate.
  - left. reflexivity.
  - exact Hrun1.
  - vm_compute in Hrun1. injection Hrun1 as <- _. reflexivity.
  - exact Hrun2.
  - vm_compute in Hrun1. injection Hrun1 as <- <-.
    vm_compute in Hrun2. injection Hrun2 as <- _. reflexivity.
  - exists response, r2. repeat split; assumption.
Defined.

Lemma proceed_is_charged_twice_witness :
  exists r',
    POST_admission env_plugins Number_example free_user time_text_example no_prototype_name
                   (mkClock 201 202 203 204) "u" "cvemap" "mistral-medium" Store.empty
    = Ok (Proceed, r')
    /\ In 202 (members_of (data r') plugins_key)
    /\ In 204 (members_of (data r') "ratelimit:u:HACKERGPT").
Proof.
  destruct (POST_admission env_plugins Number_example free_user time_text_example
              no_prototype_name (mkClock 201 202 203 204) "u" "cvemap" "mistral-medium"
              Store.empty) as [[outcome r']|e] eqn:Hpost;
    [|vm_compute in Hpost; discriminate].
  assert (outcome = Proceed) as -> by (vm_compute in Hpost; now injection Hpost as <- _).
  exists r'. split; [reflexivity|].
  destruct (proceed_is_charged_twice env_plugins Number_example free_user time_text_example
              no_prototype_name (mkClock 201 202 203 204) "u" "cvemap" "mistral-medium"
              Store.empty r') as (_ & Hplugins & Hmodel); [evaluate | exact Hpost |].
  split; assumption.
Defined.

Lemma chat_history_window_witness :
  chatHistory [mkMessage "system" (Plain "s"); mkMessage "user" (Plain "1");
               mkMessage "assistant" (Plain "2"); mkMessage "user" (Plain "3");
               mkMessage "assistant" (Plain "4"); mkMessage "user" (Plain "5");
               mkMessage "user" (Plain "last")]
  = [mkMessage "assistant" (Plain "2"); mkMessage "user" (Plain "3");
     mkMessage "assistant" (Plain "4"); mkMessage "user" (Plain "5")].
Proof.
  destruct (chat_history_window
              [mkMessage "system" (Plain "s"); mkMessage "user" (Plain "1");
               mkMessage "assistant" (Plain "2"); mkMessage "user" (Plain "3");
               mkMessage "assistant" (Plain "4"); mkMessage "user" (Plain "5");
               mkMessage "user" (Plain "last")] "sys" "usr") as (_ & Hmiddle & _).
  rewrite (Hmiddle (mkMessage "system" (Plain "s")) (mkMessage "user" (Plain "last"))
             [mkMessage "user" (Plain "1");
              mkMessage "assistant" (Plain "2"); mkMessage "user" (Plain "3");
              mkMessage "assistant" (Plain "4"); mkMessage "user" (Plain "5")] eq_refl).
  reflexivity.
Defined.

Lemma detector_answer_shape_witness :
  POST env_closed Number_example free_user (fun _ => NaN) "gpt-4o" "mistral-large"
       5 (Returns "u") "gpt-4o" (Returns "hello") 1 10 None Store.empty
  = mkAnswer "None" (of_Z (-1)) 429
  /\ POST (<["RATELIMITER_LIMIT_GPT_4_FREE" := "abc"]> env_example) Number_example free_user
          (fun _ => NaN) "gpt-4o" "mistral-large"
          5 (Returns "u") "gpt-4o" (Returns "hello") 1 10 None Store.empty
     = mkAnswer "None" (of_Z (-1)) 500.
Proof.
  split.
  - destruct (detector_answer_shape
                env_closed Number_example free_user (fun _ => NaN) "gpt-4o" "mistral-large"
                5 (Returns "u") "gpt-4o" (Returns "hello") 1%nat 10%nat None Store.empty)
      as (_ & _ & _ & Hdenied & _).
    apply (Hdenied "u" (mkResult false (of_Z 0) None) (after_reads gpt4_key Store.empty));
      evaluate.
  - destruct (detector_answer_shape
                (<["RATELIMITER_LIMIT_GPT_4_FREE" := "abc"]> env_example)
                Number_example free_user (fun _ => NaN) "gpt-4o" "mistral-large"
                5 (Returns "u") "gpt-4o" (Returns "hello") 1%nat 10%nat None Store.empty)
      as (_ & _ & _ & _ & Hthrown & _).
    apply (Hthrown "u" InvalidLimitConfiguration); evaluate.
Defined.


Lemma request_body_of_accepted_witness :
  In ("host", PortScanner.Strings ["a.com"])
     (PortScanner.requestBody
        (PortScanner.mkParams ["a.com"] "light" (Some "") "" false None)).
Proof.
  destruct (request_body_of_accepted
              "/portscanner -host a.com"
              (PortScanner.mkParams ["a.com"] "light" (Some "") "" false None))
    as [Hhost _]; [evaluate | evaluate |].
  exact Hhost.
Defined.

End MoreRuns.
